(** * Structured logger with correlation ids: a model of [src/logging/logger.py]

    The development follows the Python module function by function:
    the correlation-id context variable and its two accessors, the two
    enrichment processors, [configure_logging], and the ASGI
    [LoggerMiddleware].  Effects are written as explicit state passing over
    a [World] that holds the context variable, the installed structlog
    configuration, the entropy and clock the module reads, the record of the
    calls made on loggers and the messages handed to the server's [send].
    A call that can raise returns the exception beside the world it
    leaves. *)

From Stdlib Require Import ZArith NArith Ascii String.
From stdpp Require Import gmap strings list fin_maps.

Local Open Scope N_scope.

(** ** Python values

    A Python [str] is held as its UTF-8 encoding and a [bytes] object as
    its bytes, so both are Rocq strings; [bytes.decode()] is then the strict
    UTF-8 check, and the empty [str] is the empty string. *)

Module Py.

(** One byte is a continuation byte of UTF-8 when it lies in 80..BF. *)
Definition in_range (lo hi b : N) : bool := (lo <=? b) && (b <=? hi).

Definition cont (b : N) : bool := in_range 128 191 b.

(** Strict UTF-8 well-formedness, as the [utf-8] codec with
    [errors='strict'] checks it: shortest forms only, no surrogates, nothing
    above U+10FFFF. *)
Fixpoint utf8_valid (s : string) : bool :=
  match s with
  | EmptyString => true
  | String c0 t0 =>
    let b0 := N_of_ascii c0 in
    if b0 <? 128 then utf8_valid t0 else
    match t0 with
    | EmptyString => false
    | String c1 t1 =>
      let b1 := N_of_ascii c1 in
      if in_range 194 223 b0 then cont b1 && utf8_valid t1 else
      match t1 with
      | EmptyString => false
      | String c2 t2 =>
        let b2 := N_of_ascii c2 in
        if in_range 224 239 b0 then
          (if b0 =? 224 then in_range 160 191 b1
           else if b0 =? 237 then in_range 128 159 b1
           else cont b1)
          && cont b2 && utf8_valid t2
        else
        match t2 with
        | EmptyString => false
        | String c3 t3 =>
          let b3 := N_of_ascii c3 in
          if in_range 240 244 b0 then
            (if b0 =? 240 then in_range 144 191 b1
             else if b0 =? 244 then in_range 128 143 b1
             else cont b1)
            && cont b2 && cont b3 && utf8_valid t3
          else false
        end
      end
    end
  end.

(** [b.decode()]: the text when the bytes are well-formed UTF-8, and
    [None] for the [UnicodeDecodeError] it raises otherwise. *)
Definition decode (b : string) : option string :=
  if utf8_valid b then Some b else None.

(** Truthiness of a [str]: only the empty one is falsy. *)
Definition truthy (s : string) : bool :=
  match s with EmptyString => false | String _ _ => true end.

(** [dict(pairs)]: pairs are inserted left to right, so for a repeated key
    the last pair is the one that stays. *)
Definition dict {V} (pairs : list (string * V)) : gmap string V :=
  foldl (fun m p => <[p.1 := p.2]> m) ∅ pairs.

(** [d.get(k, dflt)]. *)
Definition get {V} (d : gmap string V) (k : string) (dflt : V) : V :=
  default dflt (d !! k).

(** *** Exceptions *)

(** What the model needs of an exception object: whether it is an instance
    of [Exception] (and not only of [BaseException], as
    [asyncio.CancelledError] or [KeyboardInterrupt] are), its class name and
    what [str(e)] gives. *)
Record exc := {
  exc_is_Exception : bool;
  exc_class : string;
  exc_str : string
}.

Definition UnicodeDecodeError : exc :=
  {| exc_is_Exception := true;
     exc_class := "UnicodeDecodeError";
     exc_str := "'utf-8' codec can't decode bytes" |}.

(** [d[key]] on a dict without the key. *)
Definition KeyError (key : string) : exc :=
  {| exc_is_Exception := true;
     exc_class := "KeyError";
     exc_str := "'" +:+ key +:+ "'" |}.

(** [obj.name] on an object without that attribute. *)
Definition AttributeError (name : string) : exc :=
  {| exc_is_Exception := true;
     exc_class := "AttributeError";
     exc_str := "object has no attribute '" +:+ name +:+ "'" |}.

(** *** [uuid.uuid4] and [str(UUID)] *)

Definition hex_char (d : N) : ascii :=
  ascii_of_N (if d <? 10 then 48 + d else 87 + d).

(** The [w] low hexadecimal digits of [n], most significant first
    ([%0wx] when [n < 16^w]). *)
Fixpoint hex_digits (w : nat) (n : N) : string :=
  match w with
  | O => EmptyString
  | S w' => hex_digits w' (n / 16) +:+ String (hex_char (n mod 16)) EmptyString
  end.

(** [UUID(bytes=os.urandom(16), version=4).int]: the 128 random bits with
    the variant set to RFC 4122 and the version to 4. *)
Definition uuid4_int (r : N) : N :=
  let i := r mod 2 ^ 128 in
  let i := N.ldiff i (N.shiftl 49152 48) in
  let i := N.lor i (N.shiftl 32768 48) in
  let i := N.ldiff i (N.shiftl 61440 64) in
  N.lor i (N.shiftl 4 76).

(** [str(u)]: 32 hex digits in groups 8-4-4-4-12. *)
Definition str_uuid (i : N) : string :=
  let h := hex_digits 32 i in
  substring 0 8 h +:+ "-" +:+ substring 8 4 h +:+ "-" +:+
  substring 12 4 h +:+ "-" +:+ substring 16 4 h +:+ "-" +:+
  substring 20 12 h.

(** *** [datetime] *)

Record datetime := {
  year : N; month : N; day : N;
  hour : N; minute : N; second : N; microsecond : N
}.

(** The ranges every [datetime] object satisfies. *)
Definition datetime_valid (t : datetime) : Prop :=
  1 <= year t <= 9999 /\ 1 <= month t <= 12 /\ 1 <= day t <= 31 /\
  hour t < 24 /\ minute t < 60 /\ second t < 60 /\ microsecond t < 1000000.

Definition digit_char (d : N) : ascii := ascii_of_N (48 + d).

(** The [w] low decimal digits of [n], most significant first: [%0wd] for
    [n < 10^w], which is where the fields of a [datetime] lie. *)
Fixpoint dec_digits (w : nat) (n : N) : string :=
  match w with
  | O => EmptyString
  | S w' => dec_digits w' (n / 10) +:+ String (digit_char (n mod 10)) EmptyString
  end.

(** [t.isoformat()] of a naive datetime: the fraction is printed only when
    the microsecond field is not zero. *)
Definition isoformat (t : datetime) : string :=
  dec_digits 4 (year t) +:+ "-" +:+ dec_digits 2 (month t) +:+ "-" +:+
  dec_digits 2 (day t) +:+ "T" +:+ dec_digits 2 (hour t) +:+ ":" +:+
  dec_digits 2 (minute t) +:+ ":" +:+ dec_digits 2 (second t) +:+
  (if microsecond t =? 0 then EmptyString
   else "." +:+ dec_digits 6 (microsecond t)).

(** *** [logging.getLevelName] on a level name *)

Inductive value :=
| VStr (s : string)
| VBytes (b : string)
| VInt (n : Z)
| VBool (b : bool)
| VSeconds (t_end t_start : datetime).

Definition getLevelName (level : string) : value :=
  if String.eqb level "CRITICAL" then VInt 50
  else if String.eqb level "FATAL" then VInt 50
  else if String.eqb level "ERROR" then VInt 40
  else if String.eqb level "WARN" then VInt 30
  else if String.eqb level "WARNING" then VInt 30
  else if String.eqb level "INFO" then VInt 20
  else if String.eqb level "DEBUG" then VInt 10
  else if String.eqb level "NOTSET" then VInt 0
  else VStr ("Level " +:+ level).

(** [v == s] for a [str] literal [s]. *)
Definition eq_str (v : value) (s : string) : bool :=
  match v with VStr t => String.eqb t s | _ => false end.

End Py.

Export Py.

(** ** The world the module runs in *)

(** A log event: the mapping structlog hands from stage to stage. *)
Abbreviation event_dict := (gmap string value).

(** An ASGI message: a dict with a ["type"] key and, for
    [http.response.start], a ["status"] key. *)
Abbreviation message := (gmap string value).

(** The stages [configure_logging] can put in the chain.  Only
    [add_correlation_id] and [add_timestamp] are code of this module; the
    others are structlog's. *)
Inductive processor :=
| merge_contextvars
| add_correlation_id_stage
| add_timestamp_stage
| add_log_level
| add_logger_name
| StackInfoRenderer
| format_exc_info
| UnicodeDecoder
| JSONRenderer
| ConsoleRenderer.

(** What [structlog.configure] is called with.  The logger factory is
    [PrintLoggerFactory] in every configuration of this program, the
    module's and structlog's default alike. *)
Record structlog_config := {
  cfg_processors : list processor;
  cfg_min_level : value;
  cfg_cache_logger_on_first_use : bool
}.

(** The logger object a call is made on: the middleware's own
    ([self.logger]) or one the application obtained, by name. *)
Inductive logger_ref :=
| MiddlewareLogger
| AppLogger (name : string).

(** What became of a call on a logger: the event went through the whole
    chain and was written, the level filter made the call a no-op, or the
    call raised. *)
Inductive fate :=
| Written
| Dropped
| Failed (e : exc).

(** One call made on a logger: the method called, the event dict as it
    stood when the chain ended or raised (as the call built it, for a call
    the filter dropped), and what became of the call. *)
Record log_entry := {
  le_logger : logger_ref;
  le_method : string;
  le_dict : event_dict;
  le_fate : fate
}.

Record World := {
  correlation_id_var : option string;
      (* the ContextVar in the current context; None: never set, reads "" *)
  structlog_installed : option structlog_config;
  structlog_contextvars : gmap string value;
  urandom : nat -> N;          (* the 128-bit draws uuid4 will make *)
  urandom_used : nat;
  clock : nat -> datetime;     (* what the successive utcnow() calls read *)
  clock_used : nat;
  w_log : list log_entry;      (* the calls made on loggers, in order *)
  w_sent : list message        (* messages handed to the server's send *)
}.

Definition with_cid (c : option string) (w : World) : World :=
  {| correlation_id_var := c;
     structlog_installed := structlog_installed w;
     structlog_contextvars := structlog_contextvars w;
     urandom := urandom w; urandom_used := urandom_used w;
     clock := clock w; clock_used := clock_used w;
     w_log := w_log w; w_sent := w_sent w |}.

Definition with_structlog (c : option structlog_config)
    (b : gmap string value) (w : World) : World :=
  {| correlation_id_var := correlation_id_var w;
     structlog_installed := c;
     structlog_contextvars := b;
     urandom := urandom w; urandom_used := urandom_used w;
     clock := clock w; clock_used := clock_used w;
     w_log := w_log w; w_sent := w_sent w |}.

Definition with_log (l : list log_entry) (w : World) : World :=
  {| correlation_id_var := correlation_id_var w;
     structlog_installed := structlog_installed w;
     structlog_contextvars := structlog_contextvars w;
     urandom := urandom w; urandom_used := urandom_used w;
     clock := clock w; clock_used := clock_used w;
     w_log := l; w_sent := w_sent w |}.

Definition with_sent (l : list message) (w : World) : World :=
  {| correlation_id_var := correlation_id_var w;
     structlog_installed := structlog_installed w;
     structlog_contextvars := structlog_contextvars w;
     urandom := urandom w; urandom_used := urandom_used w;
     clock := clock w; clock_used := clock_used w;
     w_log := w_log w; w_sent := l |}.

(** [str(uuid4())]: one draw from the entropy source. *)
Definition uuid4_str (w : World) : string * World :=
  (str_uuid (uuid4_int (urandom w (urandom_used w))),
   {| correlation_id_var := correlation_id_var w;
      structlog_installed := structlog_installed w;
      structlog_contextvars := structlog_contextvars w;
      urandom := urandom w; urandom_used := S (urandom_used w);
      clock := clock w; clock_used := clock_used w;
      w_log := w_log w; w_sent := w_sent w |}).

(** [datetime.utcnow()]: one reading of the clock. *)
Definition utcnow (w : World) : datetime * World :=
  (clock w (clock_used w),
   {| correlation_id_var := correlation_id_var w;
      structlog_installed := structlog_installed w;
      structlog_contextvars := structlog_contextvars w;
      urandom := urandom w; urandom_used := urandom_used w;
      clock := clock w; clock_used := S (clock_used w);
      w_log := w_log w; w_sent := w_sent w |}).

(** How a call ends. *)
Inductive outcome :=
| Returned
| Raised (e : exc).

(** ** Correlation context store *)

(** [correlation_id_var.get()], with the variable's default [""]. *)
Definition correlation_id_var_get (w : World) : string :=
  default EmptyString (correlation_id_var w).

(** [get_correlation_id()]:
    [return correlation_id_var.get() or str(uuid4())]. *)
Definition get_correlation_id (w : World) : string * World :=
  let v := correlation_id_var_get w in
  if truthy v then (v, w) else uuid4_str w.

(** [set_correlation_id(correlation_id=None)]. *)
Definition set_correlation_id (correlation_id : option string) (w : World)
    : string * World :=
  let '(cid, w1) :=
    match correlation_id with
    | Some s => if truthy s then (s, w) else uuid4_str w
    | None => uuid4_str w
    end in
  (cid, with_cid (Some cid) w1).

(** ** Enrichment processors *)

(** [add_correlation_id(logger, method_name, event_dict)]; the first two
    arguments are not used by the body. *)
Definition add_correlation_id (ev : event_dict) (w : World)
    : event_dict * World :=
  let '(cid, w1) := get_correlation_id w in
  if truthy cid then (<["correlation_id" := VStr cid]> ev, w1)
  else (ev, w1).

(** [add_timestamp(logger, method_name, event_dict)]. *)
Definition add_timestamp (ev : event_dict) (w : World)
    : event_dict * World :=
  let '(now, w1) := utcnow w in
  (<["timestamp" := VStr (isoformat now +:+ "Z")]> ev, w1).

(** ** [configure_logging] *)

Definition processors (json_logs : bool) : list processor :=
  [ merge_contextvars; add_correlation_id_stage; add_timestamp_stage;
    add_log_level; add_logger_name; StackInfoRenderer; format_exc_info;
    UnicodeDecoder ]
  ++ (if json_logs then [JSONRenderer] else [ConsoleRenderer]).

(** [configure_logging(level, json_logs, service_name, environment)].
    [make_filtering_bound_logger] has a class for each of the numbers
    [getLevelName] gives for a name it knows, and raises [KeyError] on
    anything else, here on the text ["Level <name>"] that [getLevelName]
    returns for a name it does not know; it is evaluated as an argument of
    [structlog.configure], so that on such a name nothing is installed and
    nothing is bound. *)
Definition configure_logging (level : string) (json_logs : bool)
    (service_name environment : string) (w : World) : World * outcome :=
  match getLevelName level with
  | VInt n =>
    (with_structlog
       (Some {| cfg_processors := processors json_logs;
                cfg_min_level := VInt n;
                cfg_cache_logger_on_first_use := true |})
       (<["environment" := VStr environment]>
          (<["service" := VStr service_name]> (structlog_contextvars w)))
       w,
     Returned)
  | VStr s => (w, Raised (KeyError s))
  | _ => (w, Raised (KeyError level))
  end.

(** ** A call on a logger *)

(** The level of the methods of structlog's filtering bound logger that
    take an event and keywords.  Its other methods ([log], [bind], the
    [async] variants) have another signature and are not calls of this
    model; any other name stands for an attribute the logger does not
    have. *)
Definition method_level (method : string) : option Z :=
  if String.eqb method "debug" then Some 10%Z
  else if String.eqb method "info" then Some 20%Z
  else if String.eqb method "msg" then Some 20%Z
  else if String.eqb method "warning" then Some 30%Z
  else if String.eqb method "warn" then Some 30%Z
  else if String.eqb method "error" then Some 40%Z
  else if String.eqb method "exception" then Some 40%Z
  else if String.eqb method "critical" then Some 50%Z
  else if String.eqb method "fatal" then Some 50%Z
  else None.

(** The method name the stages are given: [exception] calls [error],
    [warn] is [warning], [fatal] is [critical], [msg] is [info]. *)
Definition level_name (method : string) : string :=
  if String.eqb method "exception" then "error"
  else if String.eqb method "warn" then "warning"
  else if String.eqb method "fatal" then "critical"
  else if String.eqb method "msg" then "info"
  else method.

(** The threshold of the installed wrapper class; structlog's default
    class filters nothing. *)
Definition min_level (w : World) : Z :=
  match structlog_installed w with
  | Some c => match cfg_min_level c with VInt n => n | _ => 0%Z end
  | None => 0%Z
  end.

(** The chain a call goes through: the installed one, or structlog's
    default one.  Of the default chain the model has the two stages it has
    a meaning for; the others (stack and exception info, structlog's own
    time stamper, the console renderer) are none of the module's and none
    of them raises. *)
Definition installed_chain (w : World) : list processor :=
  match structlog_installed w with
  | Some c => cfg_processors c
  | None => [merge_contextvars; add_log_level]
  end.

(** What a stage hands on: the event dict, or an exception. *)
Inductive stage_result :=
| Next (ev : event_dict)
| Raise (e : exc).

(** One stage of the chain, called with the wrapped logger, the method
    name and the event dict.
    - [merge_contextvars] sets, with [setdefault], every bound context
      variable the event does not have;
    - [add_log_level] assigns ["level"];
    - [add_logger_name] reads [logger.name], and the logger is a
      [PrintLogger], which has no such attribute;
    - the stages after it in the module's chain work on keys the module
      does not write, and in that chain they are never reached. *)
Definition run_stage (p : processor) (method : string) (ev : event_dict)
    (w : World) : stage_result * World :=
  match p with
  | merge_contextvars => (Next (ev ∪ structlog_contextvars w), w)
  | add_correlation_id_stage =>
      let '(ev1, w1) := add_correlation_id ev w in (Next ev1, w1)
  | add_timestamp_stage =>
      let '(ev1, w1) := add_timestamp ev w in (Next ev1, w1)
  | add_log_level => (Next (<["level" := VStr (level_name method)]> ev), w)
  | add_logger_name => (Raise (AttributeError "name"), w)
  | _ => (Next ev, w)
  end.

(** The stages run in list order, each on what the one before returned;
    an exception ends the chain.  The result is the event dict as it then
    stood, the exception if any, and the world. *)
Fixpoint run_chain (chain : list processor) (method : string)
    (ev : event_dict) (w : World) : event_dict * option exc * World :=
  match chain with
  | [] => (ev, None, w)
  | p :: rest =>
    match run_stage p method ev w with
    | (Next ev1, w1) => run_chain rest method ev1 w1
    | (Raise e, w1) => (ev, Some e, w1)
    end
  end.

(** The keyword arguments as the method hands them on: [exception] is
    [kw.setdefault("exc_info", True)] followed by [error]. *)
Definition call_kw (method : string) (kw : event_dict) : event_dict :=
  if String.eqb method "exception" then kw ∪ {["exc_info" := VBool true]}
  else kw.

(** [logger.<method>(event, **kw)].  A name that is no method of the
    logger raises [AttributeError]; a method below the threshold is a
    no-op; otherwise structlog puts the event name under ["event"], sends
    the dict through the chain and, when no stage raised, writes the
    result.  The call is recorded in any case. *)
Definition log_call (lg : logger_ref) (method event : string)
    (kw : event_dict) (w : World) : World * option exc :=
  let ev0 := <["event" := VStr event]> (call_kw method kw) in
  let entry ev f :=
    {| le_logger := lg; le_method := method; le_dict := ev; le_fate := f |} in
  match method_level method with
  | None =>
      (with_log (w_log w ++ [entry ev0 (Failed (AttributeError method))]) w,
       Some (AttributeError method))
  | Some l =>
    if (l <? min_level w)%Z
    then (with_log (w_log w ++ [entry ev0 Dropped]) w, None)
    else
      match run_chain (installed_chain w) (level_name method) ev0 w with
      | (ev, None, w1) => (with_log (w_log w1 ++ [entry ev Written]) w1, None)
      | (ev, Some e, w1) =>
          (with_log (w_log w1 ++ [entry ev (Failed e)]) w1, Some e)
      end
  end.

(** ** The ASGI middleware *)

(** The connection scope as the middleware receives it.  ["type"],
    ["method"] and ["path"] are read with [scope[...]]; ["headers"] and
    ["query_string"] with [scope.get]. *)
Record scope := {
  sc_type : string;
  sc_method : string;
  sc_path : string;
  sc_query_string : option string;
  sc_headers : option (list (string * string))
}.

(** One run of the wrapped application, seen from the middleware: the calls
    it makes, in order, on the [send] it was given, on loggers and on
    [set_correlation_id], what it assigns to or deletes from the scope dict
    it was handed, and how it ends. *)
Inductive app_action :=
| ASend (m : message)
| ALog (name method event : string) (kw : event_dict)
| ASetCorrelationId (correlation_id : option string)
| AScopeSet (key : string) (v : option value).

Record app_run := {
  run_actions : list app_action;
  run_outcome : outcome
}.

(** The server's [send]: the message goes out as it is. *)
Definition send (m : message) (w : World) : World :=
  with_sent (w_sent w ++ [m]) w.

(** [send_wrapper(message)], on the [status_code] cell of the enclosing
    call.  [None] is the [KeyError] of [message["type"]] or
    [message["status"]], raised before anything is assigned or sent. *)
Definition send_wrapper (m : message) (st : value * World)
    : option (value * World) :=
  let '(status_code, w) := st in
  match m !! "type" with
  | None => None
  | Some t =>
    if eq_str t "http.response.start" then
      match m !! "status" with
      | None => None
      | Some s => Some (s, send m w)
      end
    else Some (status_code, send m w)
  end.

(** One action of the application running under the wrapper.  An
    exception out of [send_wrapper] or out of a logger lands in the
    application, which goes on as its run says. *)
Definition wrapped_step (a : app_action) (st : value * World)
    : value * World :=
  match a with
  | ASend m => default st (send_wrapper m st)
  | ALog name method event kw =>
      (st.1, (log_call (AppLogger name) method event kw st.2).1)
  | ASetCorrelationId c => (st.1, (set_correlation_id c st.2).2)
  | AScopeSet _ _ => st
  end.

Definition run_wrapped (acts : list app_action) (st : value * World)
    : value * World :=
  foldl (fun s a => wrapped_step a s) st acts.

(** The same run when the application is given the server's [send]
    directly (the pass-through branch). *)
Definition plain_step (a : app_action) (w : World) : World :=
  match a with
  | ASend m => send m w
  | ALog name method event kw =>
      (log_call (AppLogger name) method event kw w).1
  | ASetCorrelationId c => (set_correlation_id c w).2
  | AScopeSet _ _ => w
  end.

Definition run_plain (acts : list app_action) (w : World) : World :=
  foldl (fun s a => plain_step a s) w acts.

(** [scope[key]] after the run, for a key that held [cur] before it:
    the last thing the application did to that key decides. *)
Fixpoint scope_after (acts : list app_action) (key : string)
    (cur : option value) : option value :=
  match acts with
  | [] => cur
  | AScopeSet k v :: rest =>
      scope_after rest key (if String.eqb k key then v else cur)
  | _ :: rest => scope_after rest key cur
  end.

(** The keyword arguments of the three events the middleware logs. *)
Definition started_kw (sc : scope) (query : string) : event_dict :=
  <["query" := VStr query]>
    (<["path" := VStr (sc_path sc)]>
       (<["method" := VStr (sc_method sc)]> ∅)).

Definition error_kw (e : exc) : event_dict :=
  <["error" := VStr (exc_str e)]> ∅.

Definition completed_kw (method path status_code : value)
    (now start_time : datetime) : event_dict :=
  <["duration_seconds" := VSeconds now start_time]>
    (<["status_code" := status_code]>
       (<["path" := path]> (<["method" := method]> ∅))).

(** The [except Exception] clause: for an instance of [Exception] the
    error event is logged and the exception raised again; when the logger
    call raises, its exception is the one that goes on. *)
Definition except_clause (o : outcome) (w : World) : World * outcome :=
  match o with
  | Raised e =>
      if exc_is_Exception e
      then
        let '(w1, r) := log_call MiddlewareLogger "exception" "request_error"
                                 (error_kw e) w in
        (w1, match r with Some err => Raised err | None => Raised e end)
      else (w, o)
  | Returned => (w, Returned)
  end.

(** The [finally] clause, entered with the outcome [o] in flight: the
    clock is read, [scope["method"]] and [scope["path"]] are read from the
    dict the application had in its hands, and the completion event is
    logged.  A [KeyError] or an exception of the logger replaces [o]. *)
Definition finally_clause (sc : scope) (acts : list app_action)
    (start_time : datetime) (st : value * World) (o : outcome)
    : World * outcome :=
  let '(now, w1) := utcnow st.2 in
  match scope_after acts "method" (Some (VStr (sc_method sc))) with
  | None => (w1, Raised (KeyError "method"))
  | Some method =>
    match scope_after acts "path" (Some (VStr (sc_path sc))) with
    | None => (w1, Raised (KeyError "path"))
    | Some path =>
      let '(w2, r) := log_call MiddlewareLogger "info" "request_completed"
                               (completed_kw method path st.1 now start_time)
                               w1 in
      (w2, match r with Some err => Raised err | None => o end)
    end
  end.

(** [LoggerMiddleware.__call__(scope, receive, send)] around one run of
    [self.app]. *)
Definition call (sc : scope) (app : app_run) (w : World) : World * outcome :=
  if negb (String.eqb (sc_type sc) "http") then
    (run_plain (run_actions app) w, run_outcome app)
  else
    let headers := dict (default [] (sc_headers sc)) in
    match decode (get headers "x-correlation-id" EmptyString) with
    | None => (w, Raised UnicodeDecodeError)
    | Some h =>
      let '(correlation_id, w1) :=
        if truthy h then (h, w) else uuid4_str w in
      let w2 := (set_correlation_id (Some correlation_id) w1).2 in
      let '(start_time, w3) := utcnow w2 in
      match decode (default EmptyString (sc_query_string sc)) with
      | None => (w3, Raised UnicodeDecodeError)
      | Some query =>
        match log_call MiddlewareLogger "info" "request_started"
                       (started_kw sc query) w3 with
        | (w4, Some err) => (w4, Raised err)
        | (w4, None) =>
          let st := run_wrapped (run_actions app) (VInt 500, w4) in
          let '(w5, o) := except_clause (run_outcome app) st.2 in
          finally_clause sc (run_actions app) start_time (st.1, w5) o
        end
      end
    end.
(** ** Predicates the statements use *)

(** A run that does not call [set_correlation_id]. *)
Definition is_set (a : app_action) : bool :=
  match a with ASetCorrelationId _ => true | _ => false end.

Definition no_set (acts : list app_action) : bool :=
  forallb (fun a => negb (is_set a)) acts.

(** The ids [n] successive [get_correlation_id()] calls return. *)
Fixpoint reads (n : nat) (w : World) : list string :=
  match n with
  | O => []
  | S k => let r := get_correlation_id w in r.1 :: reads k r.2
  end.


Definition is_digit (c : ascii) : bool := in_range 48 57 (N_of_ascii c).

(** The text after the first ['.'] of a string, if it has one. *)
Fixpoint after_dot (s : string) : option string :=
  match s with
  | EmptyString => None
  | String c t => if Ascii.eqb c "." then Some t else after_dot t
  end.

(** How many digits a string starts with. *)
Fixpoint leading_digits (s : string) : nat :=
  match s with
  | EmptyString => O
  | String c t => if is_digit c then S (leading_digits t) else O
  end.

(** The number of sub-second digits of a timestamp: the digits that follow
    its decimal point, none when it has no decimal point. *)
Definition subsecond_digits (s : string) : nat :=
  match after_dot s with
  | None => O
  | Some t => leading_digits t
  end.

Fixpoint ends_with_Z (s : string) : bool :=
  match s with
  | EmptyString => false
  | String c EmptyString => Ascii.eqb c "Z"
  | String _ t => ends_with_Z t
  end.

(** Millisecond-or-finer precision: at least three sub-second digits. *)
Definition millisecond_or_finer (s : string) : bool :=
  (3 <=? subsecond_digits s)%nat.

(** Shapes of timestamps: a digit, or one given character. *)
Inductive shape :=
| Dg
| Ch (c : ascii).

Fixpoint has_shape (p : list shape) (s : string) : bool :=
  match p, s with
  | [], EmptyString => true
  | Dg :: p', String c t => is_digit c && has_shape p' t
  | Ch a :: p', String c t => Ascii.eqb c a && has_shape p' t
  | _, _ => false
  end.

(** [YYYY-MM-DDTHH:MM:SS]. *)
Definition iso_seconds : list shape :=
  [Dg; Dg; Dg; Dg; Ch "-"; Dg; Dg; Ch "-"; Dg; Dg; Ch "T";
   Dg; Dg; Ch ":"; Dg; Dg; Ch ":"; Dg; Dg].

(** [YYYY-MM-DDTHH:MM:SSZ] and [YYYY-MM-DDTHH:MM:SS.ffffffZ]. *)
Definition iso_seconds_Z : list shape := iso_seconds ++ [Ch "Z"].

Definition iso_micros_Z : list shape :=
  iso_seconds ++ [Ch "."; Dg; Dg; Dg; Dg; Dg; Dg; Ch "Z"].

(** *** Calls on a logger *)

Definition is_logger_name (p : processor) : bool :=
  match p with add_logger_name => true | _ => false end.

(** The exception a chain ends with: the stages do not raise, but for
    [add_logger_name]. *)
Definition chain_error (chain : list processor) : option exc :=
  if existsb is_logger_name chain then Some (AttributeError "name") else None.

(** What becomes of a call of [method] in the world [w]; it depends on the
    method and on the installed configuration only. *)
Definition fate_of (method : string) (w : World) : fate :=
  match method_level method with
  | None => Failed (AttributeError method)
  | Some l =>
    if (l <? min_level w)%Z then Dropped
    else match chain_error (installed_chain w) with
         | Some e => Failed e
         | None => Written
         end
  end.

Definition returns (f : fate) : bool :=
  match f with Failed _ => false | _ => true end.

Definition is_written (e : log_entry) : bool :=
  match le_fate e with Written => true | _ => false end.

(** *** Requests *)

(** The bytes [headers.get(b"x-correlation-id", b"")] finds. *)
Definition correlation_header (sc : scope) : string :=
  get (dict (default [] (sc_headers sc))) "x-correlation-id" EmptyString.

Definition query_bytes (sc : scope) : string :=
  default EmptyString (sc_query_string sc).

(** The request is HTTP and both [.decode()] calls of [__call__]
    succeed. *)
Definition decodable (sc : scope) : bool :=
  String.eqb (sc_type sc) "http" &&
  utf8_valid (correlation_header sc) && utf8_valid (query_bytes sc).

(** The wrapped application is called: the request is decodable and the
    [request_started] call on the logger returns. *)
Definition reaches_app (sc : scope) (w : World) : bool :=
  decodable sc && returns (fate_of "info" w).

(** The id the middleware binds: the header's text when it is not empty,
    the UUID of the next draw otherwise. *)
Definition request_id (sc : scope) (w : World) : string :=
  if truthy (correlation_header sc) then correlation_header sc
  else str_uuid (uuid4_int (urandom w (urandom_used w))).

(** The messages the application passes to [send], in order. *)
Definition sent_messages (acts : list app_action) : list message :=
  omap (fun a => match a with ASend m => Some m | _ => None end) acts.

(** A message on which [send_wrapper] raises no [KeyError]: it has a
    ["type"], and a ["status"] when it is an [http.response.start]. *)
Definition well_formed (m : message) : bool :=
  match m !! "type" with
  | None => false
  | Some t =>
    if eq_str t "http.response.start" then bool_decide (is_Some (m !! "status"))
    else true
  end.

(** The status of an [http.response.start] message that carries one. *)
Definition start_status (m : message) : option value :=
  match m !! "type" with
  | Some t => if eq_str t "http.response.start" then m !! "status" else None
  | None => None
  end.

(** The status codes observed on the response channel, in order. *)
Definition observed_statuses (acts : list app_action) : list value :=
  omap start_status (sent_messages acts).

(** [scope["method"]] and [scope["path"]] as the [finally] clause finds
    them. *)
Definition final_method (sc : scope) (app : app_run) : option value :=
  scope_after (run_actions app) "method" (Some (VStr (sc_method sc))).

Definition final_path (sc : scope) (app : app_run) : option value :=
  scope_after (run_actions app) "path" (Some (VStr (sc_path sc))).

(** The world in which the id is bound, the start time, and the world in
    which the application is called when it is: the start time read and
    the start event logged. *)
Definition bind_request (sc : scope) (w : World) : World :=
  (set_correlation_id (Some (request_id sc w))
     (if truthy (correlation_header sc) then w else (uuid4_str w).2)).2.

Definition start_time (sc : scope) (w : World) : datetime :=
  (utcnow (bind_request sc w)).1.

Definition at_app_start (sc : scope) (w : World) : World :=
  (log_call MiddlewareLogger "info" "request_started"
            (started_kw sc (query_bytes sc)) (utcnow (bind_request sc w)).2).1.

(** The world in which the [finally] clause is entered. *)
Definition at_finally (sc : scope) (app : app_run) (w : World) : World :=
  (except_clause (run_outcome app)
     (run_wrapped (run_actions app) (VInt 500, at_app_start sc w)).2).1.

(** *** Log entries *)

Definition by_middleware (e : log_entry) : bool :=
  match le_logger e with MiddlewareLogger => true | AppLogger _ => false end.

Definition event_is (name : string) (e : log_entry) : bool :=
  match le_dict e !! "event" with
  | Some v => eq_str v name
  | None => false
  end.

(** How many entries of a log are the middleware's event [name]. *)
Definition count_mw (name : string) (l : list log_entry) : nat :=
  length (List.filter (fun e => by_middleware e && event_is name e) l).


(** The entries added between two worlds. *)
Definition emitted (w w' : World) : list log_entry :=
  drop (length (w_log w)) (w_log w').

(** An entry that carries the correlation id [id]. *)
Definition carries (id : string) (e : log_entry) : Prop :=
  le_dict e !! "correlation_id" = Some (VStr id).

(** The value of the last pair of a list whose name is exactly [k]. *)
Definition last_value (k : string) (pairs : list (string * string))
    : option string :=
  last (omap (fun p => if String.eqb p.1 k then Some p.2 else None) pairs).

(** How many calls on a logger a run of the application makes. *)
Definition is_log (a : app_action) : bool :=
  match a with ALog _ _ _ _ => true | _ => false end.

Definition app_logs (acts : list app_action) : nat :=
  length (List.filter is_log acts).

(** The run ends by raising an instance of [Exception]. *)
Definition raised_Exception (o : outcome) : bool :=
  match o with
  | Raised e => exc_is_Exception e
  | Returned => false
  end.

(** Two worlds that differ at most in how much entropy and clock have
    been consumed. *)
Definition counters_only (w w' : World) : Prop :=
  correlation_id_var w' = correlation_id_var w /\
  structlog_installed w' = structlog_installed w /\
  structlog_contextvars w' = structlog_contextvars w /\
  urandom w' = urandom w /\ clock w' = clock w /\
  w_log w' = w_log w /\ w_sent w' = w_sent w.

(** The event dict a call is recorded with. *)
Definition call_dict (method event : string) (kw : event_dict) (w : World)
    : event_dict :=
  match fate_of method w with
  | Dropped => <["event" := VStr event]> (call_kw method kw)
  | Failed _ =>
      match method_level method with
      | None => <["event" := VStr event]> (call_kw method kw)
      | Some _ => (run_chain (installed_chain w) (level_name method)
                     (<["event" := VStr event]> (call_kw method kw)) w).1.1
      end
  | Written => (run_chain (installed_chain w) (level_name method)
                  (<["event" := VStr event]> (call_kw method kw)) w).1.1
  end.

Definition is_correlation_stage (p : processor) : bool :=
  match p with add_correlation_id_stage => true | _ => false end.

(** The chain gets to an [add_correlation_id] stage before it raises. *)
Fixpoint runs_correlation_stage (chain : list processor) : bool :=
  match chain with
  | [] => false
  | p :: rest =>
    if is_correlation_stage p then true
    else if is_logger_name p then false
    else runs_correlation_stage rest
  end.

(** The call recorded in [e] was a method of the logger at or above the
    threshold of [w], so that the chain was run on it. *)
Definition past_filter (w : World) (e : log_entry) : bool :=
  match method_level (le_method e) with
  | Some l => negb (l <? min_level w)%Z
  | None => false
  end.



(** What holds of a world [w] from the binding of [id] in a request to
    the end of the call, when the application does not rebind: [id] is
    bound, the configuration is that of [w0], [n] draws of entropy have
    been made, and every call recorded since [pre] that got past the
    filter carries [id] if the chain gets to [add_correlation_id]. *)
Definition request_inv (id : string) (w0 : World) (pre : list log_entry)
    (n : nat) (w : World) : Prop :=
  correlation_id_var w = Some id /\
  structlog_installed w = structlog_installed w0 /\
  urandom_used w = n /\
  exists l : list log_entry,
    w_log w = pre ++ l /\
    (runs_correlation_stage (installed_chain w0) = true ->
     Forall (fun e => past_filter w0 e = true -> carries id e) l).

(** *** Readings of the clock *)

Definition is_timestamp_stage (p : processor) : bool :=
  match p with add_timestamp_stage => true | _ => false end.

(** How many times a call that goes through a chain reads the clock: once
    for every [add_timestamp] stage the chain gets to. *)
Fixpoint clock_reads (chain : list processor) : nat :=
  match chain with
  | [] => O
  | p :: rest =>
    if is_logger_name p then O
    else ((if is_timestamp_stage p then 1 else 0) + clock_reads rest)%nat
  end.

(** The same for a call of [method] in the world [w], where the filter
    may stop it before the chain. *)
Definition call_clock_reads (method : string) (w : World) : nat :=
  match method_level method with
  | Some l =>
      if (l <? min_level w)%Z then O else clock_reads (installed_chain w)
  | None => O
  end.

(** The readings made by the logger calls of a run of the application. *)
Fixpoint app_clock_reads (acts : list app_action) (w : World) : nat :=
  match acts with
  | [] => O
  | ALog _ method _ _ :: rest =>
      (call_clock_reads method w + app_clock_reads rest w)%nat
  | _ :: rest => app_clock_reads rest w
  end.

(** The readings made between the two of the middleware: by the start
    call, by the application's calls and by the error call. *)
Definition readings_between (app : app_run) (w : World) : nat :=
  (call_clock_reads "info" w + app_clock_reads (run_actions app) w
   + if raised_Exception (run_outcome app)
     then call_clock_reads "exception" w else 0)%nat.

(** ** Sample inputs *)

Module Sample.

Definition t_whole : datetime :=
  {| year := 2024; month := 1; day := 2; hour := 3; minute := 4;
     second := 5; microsecond := 0 |}.

Definition t_micro : datetime :=
  {| year := 2024; month := 1; day := 2; hour := 3; minute := 4;
     second := 5; microsecond := 1500 |}.

(** A fresh context before [configure_logging]: nothing bound, entropy
    that draws 0, 1, 2, ... and a clock that reads [t_whole]. *)
Definition w_fresh : World :=
  {| correlation_id_var := None;
     structlog_installed := None;
     structlog_contextvars := ∅;
     urandom := fun n => N.of_nat n; urandom_used := O;
     clock := fun _ => t_whole; clock_used := O;
     w_log := []; w_sent := [] |}.

(** The same after [configure_logging()] with its defaults, and after
    [configure_logging(level="WARNING")]. *)
Definition w_configured : World :=
  (configure_logging "INFO" true "app" "development" w_fresh).1.

Definition w_warning : World :=
  (configure_logging "WARNING" true "app" "development" w_fresh).1.

(** A configured context in which ["ctx-1"] is bound. *)
Definition w_bound : World := with_cid (Some "ctx-1"%string) w_configured.

(** An unconfigured context whose clock reads [t_micro]. *)
Definition w_micro : World :=
  {| correlation_id_var := None;
     structlog_installed := None;
     structlog_contextvars := ∅;
     urandom := fun n => N.of_nat n; urandom_used := O;
     clock := fun _ => t_micro; clock_used := O;
     w_log := []; w_sent := [] |}.

(** Requests: without headers, with the correlation header, and with a
    value that is not UTF-8. *)
Definition sc_plain : scope :=
  {| sc_type := "http"; sc_method := "GET"; sc_path := "/items";
     sc_query_string := None; sc_headers := None |}.

Definition sc_header : scope :=
  {| sc_type := "http"; sc_method := "GET"; sc_path := "/items";
     sc_query_string := Some "page=2"%string;
     sc_headers := Some [("host"%string, "example.org"%string);
                         ("x-correlation-id"%string, "abc-123"%string)] |}.

Definition sc_not_utf8 : scope :=
  {| sc_type := "http"; sc_method := "GET"; sc_path := "/items";
     sc_query_string := None;
     sc_headers := Some [("x-correlation-id"%string,
                          String (ascii_of_N 255) EmptyString)] |}.

Definition response_start (status : Z) : message :=
  <["status" := VInt status]> (<["type" := VStr "http.response.start"]> ∅).

Definition response_body : message :=
  <["body" := VBytes "ok"]> (<["type" := VStr "http.response.body"]> ∅).

(** Runs of the application: a normal response with a log line, a run that
    starts the response twice, one that raises an [Exception] before
    responding, and one that is cancelled. *)
Definition app_ok : app_run :=
  {| run_actions := [ALog "app" "info" "handling" ∅;
                     ASend (response_start 200); ASend response_body];
     run_outcome := Returned |}.


Definition boom : exc :=
  {| exc_is_Exception := true; exc_class := "RuntimeError";
     exc_str := "boom" |}.

Definition app_failing : app_run :=
  {| run_actions := [ALog "app" "info" "handling" ∅];
     run_outcome := Raised boom |}.



(** A request that repeats the header, the last time empty, and a run that
    rebinds the id before it responds. *)
Definition sc_repeated : scope :=
  {| sc_type := "http"; sc_method := "GET"; sc_path := "/items";
     sc_query_string := None;
     sc_headers := Some [("x-correlation-id"%string, "abc-123"%string);
                         ("x-correlation-id"%string, EmptyString)] |}.

Definition app_rebinds : app_run :=
  {| run_actions := [ASetCorrelationId (Some "other"%string);
                     ASend (response_start 200)];
     run_outcome := Returned |}.

(** A run that deletes [scope["path"]] and returns. *)
Definition app_drops_path : app_run :=
  {| run_actions := [ASend (response_start 200); AScopeSet "path" None];
     run_outcome := Returned |}.

End Sample.

(** * Properties *)

(** ** Checks of the Python library models *)

Example decode_ascii : decode "abc-123" = Some "abc-123"%string.
Proof. reflexivity. Qed.

Example decode_ff : decode (String (ascii_of_N 255) EmptyString) = None.
Proof. reflexivity. Qed.

Example str_uuid_zero :
  str_uuid (uuid4_int 0) = "00000000-0000-4000-8000-000000000000"%string.
Proof. vm_compute. reflexivity. Qed.

Example isoformat_whole :
  isoformat {| year := 2024; month := 1; day := 2; hour := 3; minute := 4;
               second := 5; microsecond := 0 |} = "2024-01-02T03:04:05"%string.
Proof. vm_compute. reflexivity. Qed.

Example isoformat_micro :
  isoformat {| year := 2024; month := 1; day := 2; hour := 3; minute := 4;
               second := 5; microsecond := 1500 |}
  = "2024-01-02T03:04:05.001500"%string.
Proof. vm_compute. reflexivity. Qed.


(** ** Correlation context store *)

Lemma truthy_nonempty (s : string) : truthy s = true <-> s <> EmptyString.
Proof. destruct s; simpl; split; intros; congruence. Qed.

Lemma truthy_empty (s : string) : truthy s = false <-> s = EmptyString.
Proof. destruct s; simpl; split; intros; congruence. Qed.

(** A printed UUID is never the empty string: it contains its hyphens. *)
Lemma str_uuid_truthy (i : N) : truthy (str_uuid i) = true.
Proof.
  unfold str_uuid.
  destruct (substring 0 8 (hex_digits 32 i)); reflexivity.
Qed.

Lemma uuid4_str_truthy (w : World) : truthy (uuid4_str w).1 = true.
Proof. apply str_uuid_truthy. Qed.

Lemma uuid4_str_cid (w : World) :
  correlation_id_var (uuid4_str w).2 = correlation_id_var w.
Proof. reflexivity. Qed.

Lemma get_correlation_id_truthy (w : World) :
  truthy (get_correlation_id w).1 = true.
Proof.
  unfold get_correlation_id.
  destruct (truthy (correlation_id_var_get w)) eqn:E; [exact E|].
  apply uuid4_str_truthy.
Qed.

Lemma get_correlation_id_bound (v : string) (w : World) :
  correlation_id_var w = Some v -> truthy v = true ->
  get_correlation_id w = (v, w).
Proof.
  intros Hv Ht. unfold get_correlation_id, correlation_id_var_get.
  rewrite Hv. simpl. now rewrite Ht.
Qed.

Lemma get_correlation_id_unbound (w : World) :
  truthy (correlation_id_var_get w) = false ->
  get_correlation_id w = uuid4_str w.
Proof. intros H. unfold get_correlation_id. now rewrite H. Qed.

Lemma get_correlation_id_cid (w : World) :
  correlation_id_var (get_correlation_id w).2 = correlation_id_var w.
Proof.
  unfold get_correlation_id.
  destruct (truthy (correlation_id_var_get w)); reflexivity.
Qed.

(** C3. [get_correlation_id] is a total function whose result is never the
    empty string and which leaves the context variable as it was.  When a
    non-empty id is bound, the call returns it and changes nothing at all;
    otherwise it returns the UUID made from the next entropy draw, the
    variable still reads as unset, and a second call returns the UUID of the
    draw after that one. *)
Theorem get_correlation_id_spec (w : World) :
  (get_correlation_id w).1 <> EmptyString /\
  correlation_id_var (get_correlation_id w).2 = correlation_id_var w /\
  match correlation_id_var w with
  | Some (String a s) => get_correlation_id w = (String a s, w)
  | _ =>
    (get_correlation_id w).1
      = str_uuid (uuid4_int (urandom w (urandom_used w))) /\
    correlation_id_var_get (get_correlation_id w).2 = EmptyString /\
    (get_correlation_id (get_correlation_id w).2).1
      = str_uuid (uuid4_int (urandom w (S (urandom_used w))))
  end.
Proof.
  split; [apply truthy_nonempty, get_correlation_id_truthy|].
  split; [apply get_correlation_id_cid|].
  - destruct (correlation_id_var w) as [[|a s]|] eqn:E.
    + rewrite !get_correlation_id_unbound;
        unfold correlation_id_var_get; simpl; rewrite ?E; auto.
    + now apply get_correlation_id_bound.
    + rewrite !get_correlation_id_unbound;
        unfold correlation_id_var_get; simpl; rewrite ?E; auto.
Qed.

Example get_unset_twice :
  reads 2 Sample.w_fresh
  = ["00000000-0000-4000-8000-000000000000"%string;
     "00000000-0000-4000-8000-000000000001"%string].
Proof. vm_compute. reflexivity. Qed.

Lemma set_correlation_id_binds (c : option string) (w : World) :
  correlation_id_var (set_correlation_id c w).2
  = Some (set_correlation_id c w).1.
Proof.
  unfold set_correlation_id.
  destruct c as [s|]; [destruct (truthy s)|]; reflexivity.
Qed.

Lemma set_correlation_id_truthy (c : option string) (w : World) :
  truthy (set_correlation_id c w).1 = true.
Proof.
  unfold set_correlation_id.
  destruct c as [s|]; [destruct (truthy s) eqn:E|]; simpl;
    auto using str_uuid_truthy.
Qed.

(** ** Enrichment processors *)

Lemma add_correlation_id_eq (ev : event_dict) (w : World) :
  add_correlation_id ev w
  = (<["correlation_id" := VStr (get_correlation_id w).1]> ev,
     (get_correlation_id w).2).
Proof.
  unfold add_correlation_id.
  pose proof (get_correlation_id_truthy w) as Ht.
  destruct (get_correlation_id w) as [cid w1]. simpl in *. now rewrite Ht.
Qed.

Lemma add_timestamp_eq (ev : event_dict) (w : World) :
  (add_timestamp ev w).1
  = <["timestamp" := VStr (isoformat (clock w (clock_used w)) +:+ "Z")]> ev.
Proof. reflexivity. Qed.

(** C10. In [add_correlation_id] the test [if cid:] always succeeds, since
    [get_correlation_id] never returns the empty string; so for every event
    dict and every context the result has a [correlation_id] key, holding
    the id [get_correlation_id] returned. *)
Theorem add_correlation_id_always_injects (ev : event_dict) (w : World) :
  truthy (get_correlation_id w).1 = true /\
  (add_correlation_id ev w).1 !! "correlation_id"
  = Some (VStr (get_correlation_id w).1).
Proof.
  split; [apply get_correlation_id_truthy|].
  rewrite add_correlation_id_eq. simpl. apply lookup_insert_eq.
Qed.

(** C5, as the spec states it, fails: a caller who passes
    [correlation_id="mine"] in a context where ["ctx-1"] is bound gets
    ["ctx-1"] back under that key, because the processor assigns
    [event_dict["correlation_id"] = cid] whatever the dict holds. *)
Lemma caller_correlation_id_not_kept :
  ~ (forall (ev : event_dict) (w : World) (v : value),
       ev !! "correlation_id" = Some v ->
       (add_correlation_id ev w).1 !! "correlation_id" = Some v).
Proof.
  intros H.
  specialize (H {["correlation_id" := VStr "mine"]} Sample.w_bound
                (VStr "mine") eq_refl).
  vm_compute in H. discriminate H.
Qed.

Example caller_timestamp_not_kept :
  (add_timestamp {["timestamp" := VStr "X"]} Sample.w_bound).1 !! "timestamp"
  = Some (VStr "2024-01-02T03:04:05Z").
Proof. vm_compute. reflexivity. Qed.

(** C5, amended.  Both processors assign their key unconditionally: after
    [add_correlation_id] the [correlation_id] field is the id
    [get_correlation_id] returned and after [add_timestamp] the [timestamp]
    field is the time of the call, whatever the caller passed under those
    keys; every other field keeps the caller's value. *)
Theorem processors_overwrite_their_key (ev : event_dict) (w : World) :
  (add_correlation_id ev w).1 !! "correlation_id"
    = Some (VStr (get_correlation_id w).1) /\
  (add_timestamp ev w).1 !! "timestamp"
    = Some (VStr (isoformat (clock w (clock_used w)) +:+ "Z")) /\
  (forall k : string, k <> "correlation_id"%string ->
     (add_correlation_id ev w).1 !! k = ev !! k) /\
  (forall k : string, k <> "timestamp"%string ->
     (add_timestamp ev w).1 !! k = ev !! k).
Proof.
  rewrite add_correlation_id_eq, add_timestamp_eq. simpl.
  repeat split.
  - apply lookup_insert_eq.
  - apply lookup_insert_eq.
  - intros k Hk. now apply lookup_insert_ne.
  - intros k Hk. now apply lookup_insert_ne.
Qed.

(** The caller's other fields at a concrete event. *)
Lemma processors_overwrite_their_key_witness :
  (add_correlation_id {["user" := VStr "u1"]} Sample.w_bound).1 !! "user"
  = Some (VStr "u1").
Proof.
  rewrite (proj1 (proj2 (proj2
    (processors_overwrite_their_key {["user" := VStr "u1"]} Sample.w_bound)))
    "user"%string); [reflexivity | discriminate].
Defined.

(** *** The timestamp *)

Lemma is_digit_digit_char (n : N) : is_digit (digit_char (n mod 10)) = true.
Proof.
  assert (n mod 10 < 10) as H by (apply N.mod_lt; lia).
  destruct (n mod 10) as [|p]; [reflexivity|].
  do 4 (destruct p as [p|p|]; try reflexivity; try lia).
Qed.

Lemma is_digit_not_dot (c : ascii) : is_digit c = true -> Ascii.eqb c "." = false.
Proof.
  intros H. destruct (Ascii.eqb_spec c "."%char) as [->|]; [discriminate H|done].
Qed.

Lemma shape_seconds_Z (d : N -> ascii) (t : datetime) :
  (forall n, is_digit (d n) = true) ->
  let two n := String (d (n / 10)) (String (d n) EmptyString) in
  let s := String (d (year t / 10 / 10 / 10)) (String (d (year t / 10 / 10))
             (two (year t))) +:+ "-" +:+ two (month t) +:+ "-" +:+
           two (day t) +:+ "T" +:+ two (hour t) +:+ ":" +:+
           two (minute t) +:+ ":" +:+ two (second t) in
  has_shape iso_seconds_Z (s +:+ "Z") = true /\
  subsecond_digits (s +:+ "Z") = 0%nat /\
  forall f1 f2 f3 f4 f5 f6 : N,
    let frac := String (d f1) (String (d f2) (String (d f3) (String (d f4)
                  (String (d f5) (String (d f6) EmptyString))))) in
    has_shape iso_micros_Z ((s +:+ "." +:+ frac) +:+ "Z") = true /\
    subsecond_digits ((s +:+ "." +:+ frac) +:+ "Z") = 6%nat.
Proof.
  intros Hd two s.
  assert (forall n, Ascii.eqb (d n) "." = false) as Hn
    by (intros n; apply is_digit_not_dot, Hd).
  subst s two.
  cbv [String.append subsecond_digits has_shape after_dot leading_digits
       iso_seconds_Z iso_micros_Z iso_seconds app].
  rewrite ?Hd, ?Hn. cbn. split; [reflexivity|]. split; [reflexivity|].
  intros. rewrite ?Hd. split; reflexivity.
Qed.

Lemma isoformat_Z_shape (t : datetime) :
  let s := isoformat t +:+ "Z" in
  if microsecond t =? 0
  then has_shape iso_seconds_Z s = true /\ subsecond_digits s = 0%nat
  else has_shape iso_micros_Z s = true /\ subsecond_digits s = 6%nat.
Proof.
  pose proof (shape_seconds_Z (fun n => digit_char (n mod 10)) t
                is_digit_digit_char) as [H1 [H2 H3]].
  unfold isoformat. destruct (microsecond t =? 0).
  - split; [exact H1 | exact H2].
  - exact (H3 (microsecond t / 10 / 10 / 10 / 10 / 10)
              (microsecond t / 10 / 10 / 10 / 10)
              (microsecond t / 10 / 10 / 10) (microsecond t / 10 / 10)
              (microsecond t / 10) (microsecond t)).
Qed.

Lemma has_shape_ends_with_Z (p : list shape) (s : string) :
  has_shape (p ++ [Ch "Z"]) s = true -> ends_with_Z s = true.
Proof.
  revert s. induction p as [|x p IH]; intros s H.
  - destruct s as [|c [|c' s']]; simpl in H; try discriminate.
    + simpl. now apply andb_true_iff in H as [H _].
    + destruct (Ascii.eqb c "Z"); discriminate.
  - destruct s as [|c s]; [destruct x; discriminate|].
    assert (has_shape (p ++ [Ch "Z"]) s = true) as Hs.
    { destruct x; simpl in H; now apply andb_true_iff in H as [_ H]. }
    specialize (IH s Hs). destruct s as [|c' s']; [|exact IH].
    destruct p; discriminate.
Qed.

(** C9, as the spec states it, fails at a time with a zero microsecond
    field: [isoformat()] then prints no fraction at all, so the timestamp is
    ["2024-01-02T03:04:05Z"], with no sub-second digit. *)
Lemma timestamp_not_always_millisecond :
  ~ (forall (ev : event_dict) (w : World),
       datetime_valid (clock w (clock_used w)) ->
       exists s : string,
         (add_timestamp ev w).1 !! "timestamp" = Some (VStr s) /\
         ends_with_Z s = true /\ millisecond_or_finer s = true).
Proof.
  intros H.
  destruct (H ∅ Sample.w_bound) as (s & Hs & _ & Hms).
  - vm_compute. intuition discriminate.
  - vm_compute in Hs. injection Hs as <-. vm_compute in Hms. discriminate.
Qed.

(** C9, amended.  The injected timestamp is [isoformat()] of the UTC clock
    reading followed by ['Z'].  When the microsecond field is not zero it
    reads [YYYY-MM-DDTHH:MM:SS.ffffffZ], with six sub-second digits; when
    the microsecond field is zero it reads [YYYY-MM-DDTHH:MM:SSZ], with
    none. *)
Theorem timestamp_format (ev : event_dict) (w : World) :
  let t := clock w (clock_used w) in
  datetime_valid t ->
  exists s : string,
    (add_timestamp ev w).1 !! "timestamp" = Some (VStr s) /\
    ends_with_Z s = true /\
    if microsecond t =? 0
    then has_shape iso_seconds_Z s = true /\ subsecond_digits s = 0%nat
    else has_shape iso_micros_Z s = true /\ subsecond_digits s = 6%nat /\
         millisecond_or_finer s = true.
Proof.
  intros t _. exists (isoformat t +:+ "Z").
  split; [rewrite add_timestamp_eq; apply lookup_insert_eq|].
  pose proof (isoformat_Z_shape t) as H. cbv zeta in H.
  destruct (microsecond t =? 0).
  - destruct H as [H1 H2]. split; [|split; assumption].
    now apply (has_shape_ends_with_Z iso_seconds).
  - destruct H as [H1 H2]. split.
    + now apply (has_shape_ends_with_Z
                   (iso_seconds ++ [Ch "."; Dg; Dg; Dg; Dg; Dg; Dg])).
    + unfold millisecond_or_finer. now rewrite H2.
Qed.

Lemma timestamp_format_witness :
  exists s : string,
    (add_timestamp ∅ Sample.w_micro).1 !! "timestamp" = Some (VStr s) /\
    ends_with_Z s = true /\
    has_shape iso_micros_Z s = true /\ subsecond_digits s = 6%nat /\
    millisecond_or_finer s = true.
Proof.
  apply (timestamp_format ∅ Sample.w_micro).
  vm_compute. intuition discriminate.
Defined.

(** ** Calls on a logger *)

Lemma counters_only_refl (w : World) : counters_only w w.
Proof. repeat split. Qed.

Lemma counters_only_trans (w1 w2 w3 : World) :
  counters_only w1 w2 -> counters_only w2 w3 -> counters_only w1 w3.
Proof. unfold counters_only. intuition congruence. Qed.

Lemma get_correlation_id_counters (w : World) :
  counters_only w (get_correlation_id w).2.
Proof.
  unfold get_correlation_id.
  destruct (truthy (correlation_id_var_get w)); repeat split.
Qed.

(** A stage changes nothing in the world but the two counters. *)
Lemma run_stage_counters (p : processor) (method : string) (ev : event_dict)
    (w : World) :
  counters_only w (run_stage p method ev w).2.
Proof.
  destruct p; simpl; try apply counters_only_refl.
  - rewrite add_correlation_id_eq. apply get_correlation_id_counters.
  - repeat split.
Qed.

Lemma run_chain_counters (chain : list processor) (method : string)
    (ev : event_dict) (w : World) :
  counters_only w (run_chain chain method ev w).2.
Proof.
  revert ev w. induction chain as [|p rest IH]; intros ev w; simpl.
  - apply counters_only_refl.
  - pose proof (run_stage_counters p method ev w) as Hp.
    destruct (run_stage p method ev w) as [[ev1|e] w1]; simpl in Hp.
    + eapply counters_only_trans; [exact Hp | apply IH].
    + exact Hp.
Qed.

(** Whether a chain raises, and what, is decided by the list alone. *)
Lemma run_chain_error (chain : list processor) (method : string)
    (ev : event_dict) (w : World) :
  (run_chain chain method ev w).1.2 = chain_error chain.
Proof.
  unfold chain_error. revert ev w.
  induction chain as [|p rest IH]; intros ev w; [reflexivity|].
  destruct p; simpl; rewrite ?add_correlation_id_eq; simpl; try apply IH.
  reflexivity.
Qed.

(** The stages leave alone every key the event has, but the three they
    assign. *)
Lemma run_stage_lookup (p : processor) (method : string) (ev ev1 : event_dict)
    (w : World) (k : string) (v : value) :
  k <> "correlation_id"%string -> k <> "timestamp"%string ->
  k <> "level"%string ->
  (run_stage p method ev w).1 = Next ev1 ->
  ev !! k = Some v -> ev1 !! k = Some v.
Proof.
  intros H1 H2 H3 Hs Hk. destruct p; simpl in Hs;
    rewrite ?add_correlation_id_eq in Hs; simpl in Hs;
    try (injection Hs as <-); try discriminate Hs; try exact Hk.
  - now apply lookup_union_Some_l.
  - now rewrite lookup_insert_ne.
  - now rewrite lookup_insert_ne.
  - now rewrite lookup_insert_ne.
Qed.

Lemma run_chain_lookup (chain : list processor) (method : string)
    (ev : event_dict) (w : World) (k : string) (v : value) :
  k <> "correlation_id"%string -> k <> "timestamp"%string ->
  k <> "level"%string ->
  ev !! k = Some v -> (run_chain chain method ev w).1.1 !! k = Some v.
Proof.
  intros H1 H2 H3. revert ev w.
  induction chain as [|p rest IH]; intros ev w Hk; simpl; [exact Hk|].
  pose proof (run_stage_lookup p method ev) as Hp.
  destruct (run_stage p method ev w) as [[ev1|e] w1] eqn:E.
  - apply IH. eapply (Hp ev1 w); try eassumption. now rewrite E.
  - exact Hk.
Qed.

(** What a call on a logger does: the record of the call, the exception
    it raises, and nothing else but the counters. *)
Lemma log_call_log lg method event (kw : event_dict) (w : World) :
  w_log (log_call lg method event kw w).1
  = w_log w ++ [{| le_logger := lg; le_method := method;
                   le_dict := call_dict method event kw w;
                   le_fate := fate_of method w |}].
Proof.
  unfold log_call, call_dict, fate_of.
  destruct (method_level method) as [l|]; [|reflexivity].
  destruct (l <? min_level w)%Z; [reflexivity|].
  pose proof (run_chain_error (installed_chain w) (level_name method)
                (<["event" := VStr event]> (call_kw method kw)) w) as He.
  pose proof (run_chain_counters (installed_chain w) (level_name method)
                (<["event" := VStr event]> (call_kw method kw)) w) as Hc.
  destruct (run_chain _ _ _ w) as [[ev r] w1]. simpl in He, Hc.
  destruct Hc as (_ & _ & _ & _ & _ & Hl & _).
  rewrite <- He. destruct r; simpl; now rewrite Hl.
Qed.

Lemma log_call_result lg method event (kw : event_dict) (w : World) :
  (log_call lg method event kw w).2
  = match fate_of method w with Failed e => Some e | _ => None end.
Proof.
  unfold log_call, fate_of.
  destruct (method_level method) as [l|]; [|reflexivity].
  destruct (l <? min_level w)%Z; [reflexivity|].
  pose proof (run_chain_error (installed_chain w) (level_name method)
                (<["event" := VStr event]> (call_kw method kw)) w) as He.
  destruct (run_chain _ _ _ w) as [[ev r] w1]. simpl in He.
  rewrite <- He. now destruct r.
Qed.

Lemma log_call_frame lg method event (kw : event_dict) (w : World) :
  correlation_id_var (log_call lg method event kw w).1 = correlation_id_var w /\
  structlog_installed (log_call lg method event kw w).1 = structlog_installed w /\
  w_sent (log_call lg method event kw w).1 = w_sent w.
Proof.
  unfold log_call.
  destruct (method_level method) as [l|]; [|repeat split].
  destruct (l <? min_level w)%Z; [repeat split|].
  pose proof (run_chain_counters (installed_chain w) (level_name method)
                (<["event" := VStr event]> (call_kw method kw)) w) as Hc.
  destruct (run_chain _ _ _ w) as [[ev r] w1]. simpl in Hc.
  unfold counters_only in Hc. destruct r; simpl; intuition.
Qed.


(** What becomes of calls depends on the installed configuration only. *)
Lemma fate_of_stable (method : string) (w w' : World) :
  structlog_installed w' = structlog_installed w ->
  fate_of method w' = fate_of method w.
Proof. unfold fate_of, min_level, installed_chain. now intros ->. Qed.

Lemma call_dict_lookup (method event : string) (kw : event_dict) (w : World)
    (k : string) (v : value) :
  k <> "correlation_id"%string -> k <> "timestamp"%string ->
  k <> "level"%string ->
  (<["event" := VStr event]> (call_kw method kw)) !! k = Some v ->
  call_dict method event kw w !! k = Some v.
Proof.
  intros H1 H2 H3 Hk. unfold call_dict.
  destruct (fate_of method w); [| exact Hk |].
  - now apply run_chain_lookup.
  - destruct (method_level method); [now apply run_chain_lookup | exact Hk].
Qed.

Lemma log_call_event lg method event (kw : event_dict) (w : World)
    (name : string) (f : fate) :
  event_is name
    {| le_logger := lg; le_method := method;
       le_dict := call_dict method event kw w; le_fate := f |}
  = String.eqb event name.
Proof.
  unfold event_is. simpl.
  rewrite (call_dict_lookup method event kw w "event" (VStr event));
    try discriminate; [reflexivity | apply lookup_insert_eq].
Qed.

(** Neither processor, and so no call on a logger, writes the variable. *)
Lemma add_correlation_id_cid (ev : event_dict) (w : World) :
  correlation_id_var (add_correlation_id ev w).2 = correlation_id_var w.
Proof. rewrite add_correlation_id_eq. apply get_correlation_id_cid. Qed.

Lemma log_call_cid lg method event (kw : event_dict) (w : World) :
  correlation_id_var (log_call lg method event kw w).1 = correlation_id_var w.
Proof. apply log_call_frame. Qed.

Lemma plain_step_cid (a : app_action) (w : World) :
  is_set a = false ->
  correlation_id_var (plain_step a w) = correlation_id_var w.
Proof. destruct a; simpl; intros H; auto using log_call_cid; discriminate. Qed.

Lemma run_plain_cid (acts : list app_action) (w : World) :
  no_set acts = true ->
  correlation_id_var (run_plain acts w) = correlation_id_var w.
Proof.
  unfold run_plain. revert w.
  induction acts as [|a acts IH]; intros w H; simpl; [done|].
  simpl in H. apply andb_true_iff in H as [Ha Hs].
  rewrite IH by done.
  apply plain_step_cid. now destruct (is_set a).
Qed.




(** ** The middleware *)

(** *** The wrapped [send] *)

Lemma send_wrapper_eq (m : message) (st : value * World) :
  send_wrapper m st
  = if well_formed m
    then Some (default st.1 (start_status m), send m st.2)
    else None.
Proof.
  destruct st as [c w]. unfold send_wrapper, well_formed, start_status.
  destruct (m !! "type") as [t|]; [|reflexivity].
  destruct (eq_str t "http.response.start"); [|reflexivity].
  destruct (m !! "status") as [v|]; reflexivity.
Qed.

Lemma start_status_well_formed (m : message) :
  well_formed m = false -> start_status m = None.
Proof.
  unfold well_formed, start_status.
  destruct (m !! "type") as [t|]; [|reflexivity].
  destruct (eq_str t "http.response.start"); [|discriminate].
  destruct (m !! "status"); [discriminate|reflexivity].
Qed.

Lemma set_correlation_id_frame (c : option string) (w : World) :
  structlog_installed (set_correlation_id c w).2 = structlog_installed w /\
  w_log (set_correlation_id c w).2 = w_log w /\
  w_sent (set_correlation_id c w).2 = w_sent w.
Proof.
  unfold set_correlation_id.
  destruct c as [s|]; [destruct (truthy s)|]; repeat split.
Qed.

Lemma wrapped_step_status (a : app_action) (st : value * World) :
  (wrapped_step a st).1
  = match a with
    | ASend m => default st.1 (start_status m)
    | _ => st.1
    end.
Proof.
  destruct a as [m| | |]; try reflexivity.
  simpl. rewrite send_wrapper_eq.
  destruct (well_formed m) eqn:E; [reflexivity|].
  now rewrite start_status_well_formed.
Qed.

Lemma wrapped_step_sent (a : app_action) (st : value * World) :
  w_sent (wrapped_step a st).2
  = w_sent st.2 ++ List.filter well_formed (sent_messages [a]).
Proof.
  destruct a as [m|name method event kw|c|k v]; simpl.
  - rewrite send_wrapper_eq. destruct (well_formed m); simpl; [done|].
    now rewrite app_nil_r.
  - rewrite app_nil_r. apply log_call_frame.
  - rewrite app_nil_r. apply set_correlation_id_frame.
  - now rewrite app_nil_r.
Qed.

Lemma wrapped_step_installed (a : app_action) (st : value * World) :
  structlog_installed (wrapped_step a st).2 = structlog_installed st.2.
Proof.
  destruct a as [m|name method event kw|c|k v]; simpl.
  - rewrite send_wrapper_eq. now destruct (well_formed m).
  - apply log_call_frame.
  - apply set_correlation_id_frame.
  - reflexivity.
Qed.

Lemma wrapped_step_cid (a : app_action) (st : value * World) :
  is_set a = false ->
  correlation_id_var (wrapped_step a st).2 = correlation_id_var st.2.
Proof.
  destruct a as [m|name method event kw|c|k v]; simpl; intros H.
  - rewrite send_wrapper_eq. now destruct (well_formed m).
  - apply log_call_frame.
  - discriminate.
  - reflexivity.
Qed.


Lemma default_last_cons {A} (d x : A) (l : list A) :
  default d (last (x :: l)) = default x (last l).
Proof.
  revert d x. induction l as [|y l IH]; intros d x; [reflexivity|].
  change (last (x :: y :: l)) with (last (y :: l)).
  now rewrite (IH d y), (IH x y).
Qed.

Lemma run_wrapped_cons (a : app_action) (acts : list app_action) st :
  run_wrapped (a :: acts) st = run_wrapped acts (wrapped_step a st).
Proof. reflexivity. Qed.

(** The cell holds the status of the last [http.response.start] that went
    through the wrapper, and its initial value when there was none. *)
Lemma run_wrapped_status (acts : list app_action) (st : value * World) :
  (run_wrapped acts st).1 = default st.1 (last (observed_statuses acts)).
Proof.
  revert st. induction acts as [|a acts IH]; intros st; [reflexivity|].
  rewrite run_wrapped_cons, IH, wrapped_step_status.
  destruct a as [m| | |]; try reflexivity.
  unfold observed_statuses. simpl.
  destruct (start_status m) as [v|]; simpl; [|reflexivity].
  now rewrite default_last_cons.
Qed.

(** Every well-formed message reaches the server's [send], unchanged and
    in order. *)
Lemma run_wrapped_sent (acts : list app_action) (st : value * World) :
  w_sent (run_wrapped acts st).2
  = w_sent st.2 ++ List.filter well_formed (sent_messages acts).
Proof.
  revert st. induction acts as [|a acts IH]; intros st.
  - simpl. now rewrite app_nil_r.
  - rewrite run_wrapped_cons, IH, wrapped_step_sent.
    rewrite <- app_assoc. f_equal.
    destruct a; simpl; try reflexivity.
    now destruct (well_formed m).
Qed.

Lemma run_wrapped_installed (acts : list app_action) (st : value * World) :
  structlog_installed (run_wrapped acts st).2 = structlog_installed st.2.
Proof.
  revert st. induction acts as [|a acts IH]; intros st; [reflexivity|].
  now rewrite run_wrapped_cons, IH, wrapped_step_installed.
Qed.

Lemma run_wrapped_cid (acts : list app_action) (st : value * World) :
  no_set acts = true ->
  correlation_id_var (run_wrapped acts st).2 = correlation_id_var st.2.
Proof.
  revert st. induction acts as [|a acts IH]; intros st H; [reflexivity|].
  simpl in H. apply andb_true_iff in H as [Ha Hs].
  rewrite run_wrapped_cons, IH by done.
  apply wrapped_step_cid. now destruct (is_set a).
Qed.


Lemma count_mw_app (name : string) (l1 l2 : list log_entry) :
  count_mw name (l1 ++ l2) = (count_mw name l1 + count_mw name l2)%nat.
Proof. unfold count_mw. now rewrite List.filter_app, length_app. Qed.

Lemma count_mw_not_middleware (name : string) (l : list log_entry) :
  Forall (fun e => by_middleware e = false) l -> count_mw name l = 0%nat.
Proof.
  unfold count_mw. induction 1 as [|e l He _ IH]; [reflexivity|].
  simpl. now rewrite He.
Qed.



(** *** The call as a whole *)

Lemma request_id_truthy (sc : scope) (w : World) : truthy (request_id sc w) = true.
Proof.
  unfold request_id. destruct (truthy (correlation_header sc)) eqn:E; [exact E|].
  apply str_uuid_truthy.
Qed.

Lemma bind_request_cid (sc : scope) (w : World) :
  correlation_id_var (bind_request sc w) = Some (request_id sc w).
Proof.
  unfold bind_request, set_correlation_id.
  now rewrite request_id_truthy.
Qed.

Lemma bind_request_frame (sc : scope) (w : World) :
  structlog_installed (bind_request sc w) = structlog_installed w /\
  w_log (bind_request sc w) = w_log w /\
  w_sent (bind_request sc w) = w_sent w.
Proof.
  unfold bind_request, set_correlation_id. rewrite request_id_truthy.
  destruct (truthy (correlation_header sc)); repeat split.
Qed.

Lemma at_app_start_frame (sc : scope) (w : World) :
  correlation_id_var (at_app_start sc w) = Some (request_id sc w) /\
  structlog_installed (at_app_start sc w) = structlog_installed w /\
  w_sent (at_app_start sc w) = w_sent w.
Proof.
  unfold at_app_start.
  destruct (log_call_frame MiddlewareLogger "info" "request_started"
              (started_kw sc (query_bytes sc)) (utcnow (bind_request sc w)).2)
    as (Hc & Hi & Hs).
  rewrite Hc, Hi, Hs. simpl.
  split; [apply bind_request_cid|]. split; apply bind_request_frame.
Qed.


Lemma call_http (sc : scope) (app : app_run) (w : World) :
  decodable sc = true ->
  call sc app w
  = match log_call MiddlewareLogger "info" "request_started"
            (started_kw sc (query_bytes sc)) (utcnow (bind_request sc w)).2 with
    | (w4, Some err) => (w4, Raised err)
    | (w4, None) =>
        let st := run_wrapped (run_actions app) (VInt 500, w4) in
        let '(w5, o) := except_clause (run_outcome app) st.2 in
        finally_clause sc (run_actions app) (start_time sc w) (st.1, w5) o
    end.
Proof.
  unfold decodable. intros H.
  apply andb_true_iff in H as [H Hq]. apply andb_true_iff in H as [Ht Hh].
  unfold call, decode, start_time, bind_request, request_id.
  fold (correlation_header sc). fold (query_bytes sc).
  rewrite Ht, Hh, Hq. simpl negb. cbv iota.
  destruct (truthy (correlation_header sc)); reflexivity.
Qed.

(** A decodable request: the id is bound, the clock read, the start event
    logged; if that call raises the call ends there, and otherwise the
    application runs and the two clauses follow. *)
Lemma call_decodable (sc : scope) (app : app_run) (w : World) :
  decodable sc = true ->
  call sc app w
  = match fate_of "info" w with
    | Failed err => (at_app_start sc w, Raised err)
    | _ =>
      finally_clause sc (run_actions app) (start_time sc w)
        ((run_wrapped (run_actions app) (VInt 500, at_app_start sc w)).1,
         at_finally sc app w)
        (except_clause (run_outcome app)
           (run_wrapped (run_actions app) (VInt 500, at_app_start sc w)).2).2
    end.
Proof.
  intros H. rewrite call_http by exact H.
  assert (fate_of "info" (utcnow (bind_request sc w)).2 = fate_of "info" w)
    as Hf by (apply fate_of_stable; simpl; apply bind_request_frame).
  pose proof (log_call_result MiddlewareLogger "info" "request_started"
                (started_kw sc (query_bytes sc))
                (utcnow (bind_request sc w)).2) as Hr.
  rewrite Hf in Hr.
  unfold at_finally, at_app_start.
  destruct (log_call MiddlewareLogger "info" "request_started"
              (started_kw sc (query_bytes sc)) (utcnow (bind_request sc w)).2)
    as [w4 r]. simpl in Hr. subst r. cbn [fst snd].
  destruct (fate_of "info" w); try reflexivity;
    destruct (except_clause _ _); reflexivity.
Qed.

(** *** The two clauses *)

Lemma except_clause_frame (o : outcome) (w : World) :
  correlation_id_var (except_clause o w).1 = correlation_id_var w /\
  structlog_installed (except_clause o w).1 = structlog_installed w /\
  w_sent (except_clause o w).1 = w_sent w.
Proof.
  destruct o as [|e]; simpl; [repeat split|].
  destruct (exc_is_Exception e); [|repeat split].
  pose proof (log_call_frame MiddlewareLogger "exception" "request_error"
                (error_kw e) w) as H.
  destruct (log_call _ _ _ _ w) as [w1 r]. exact H.
Qed.





Lemma at_finally_frame (sc : scope) (app : app_run) (w : World) :
  structlog_installed (at_finally sc app w) = structlog_installed w /\
  w_sent (at_finally sc app w)
  = w_sent w ++ List.filter well_formed (sent_messages (run_actions app)).
Proof.
  unfold at_finally.
  destruct (except_clause_frame (run_outcome app)
              (run_wrapped (run_actions app) (VInt 500, at_app_start sc w)).2)
    as (_ & Hi & Hs).
  rewrite Hi, Hs, run_wrapped_installed, run_wrapped_sent. cbn [snd].
  destruct (at_app_start_frame sc w) as (_ & Hi' & Hs').
  now rewrite Hi', Hs'.
Qed.

Lemma finally_clause_eq (sc : scope) (acts : list app_action)
    (t0 : datetime) (st : value * World) (o : outcome) :
  finally_clause sc acts t0 st o
  = match scope_after acts "method" (Some (VStr (sc_method sc))) with
    | None => ((utcnow st.2).2, Raised (KeyError "method"))
    | Some method =>
      match scope_after acts "path" (Some (VStr (sc_path sc))) with
      | None => ((utcnow st.2).2, Raised (KeyError "path"))
      | Some path =>
        ((log_call MiddlewareLogger "info" "request_completed"
            (completed_kw method path st.1 (utcnow st.2).1 t0)
            (utcnow st.2).2).1,
         match (log_call MiddlewareLogger "info" "request_completed"
                  (completed_kw method path st.1 (utcnow st.2).1 t0)
                  (utcnow st.2).2).2 with
         | Some err => Raised err
         | None => o
         end)
      end
    end.
Proof.
  unfold finally_clause. cbn [utcnow fst snd].
  destruct (scope_after acts "method" _); [|reflexivity].
  destruct (scope_after acts "path" _); [|reflexivity].
  now destruct (log_call _ _ _ _ _).
Qed.

(** The [finally] clause when the application left [scope["method"]] and
    [scope["path"]] in place: the completion call is made, with the cell's
    status code, and what was in flight goes on unless that call raised. *)
Lemma finally_clause_kept (sc : scope) (acts : list app_action)
    (t0 : datetime) (st : value * World) (o : outcome) (m p : value) :
  scope_after acts "method" (Some (VStr (sc_method sc))) = Some m ->
  scope_after acts "path" (Some (VStr (sc_path sc))) = Some p ->
  (exists e : log_entry,
     w_log (finally_clause sc acts t0 st o).1 = w_log st.2 ++ [e] /\
     by_middleware e = true /\
     le_method e = "info"%string /\
     event_is "request_completed" e = true /\
     le_fate e = fate_of "info" st.2 /\
     le_dict e !! "status_code" = Some st.1 /\
     le_dict e !! "method" = Some m /\
     le_dict e !! "path" = Some p /\
     le_dict e !! "duration_seconds"
       = Some (VSeconds (clock st.2 (clock_used st.2)) t0)) /\
  (finally_clause sc acts t0 st o).2
    = match fate_of "info" st.2 with Failed err => Raised err | _ => o end /\
  correlation_id_var (finally_clause sc acts t0 st o).1
    = correlation_id_var st.2 /\
  structlog_installed (finally_clause sc acts t0 st o).1
    = structlog_installed st.2 /\
  w_sent (finally_clause sc acts t0 st o).1 = w_sent st.2.
Proof.
  intros Hm Hp. rewrite finally_clause_eq, Hm, Hp. cbn [fst snd].
  set (w1 := (utcnow st.2).2).
  set (kw := completed_kw m p st.1 (utcnow st.2).1 t0).
  pose proof (log_call_log MiddlewareLogger "info" "request_completed" kw w1)
    as Hl.
  pose proof (log_call_result MiddlewareLogger "info" "request_completed"
                kw w1) as Hr.
  pose proof (log_call_frame MiddlewareLogger "info" "request_completed"
                kw w1) as (Hc & Hi & Hs).
  assert (fate_of "info" w1 = fate_of "info" st.2) as Hf
    by (apply fate_of_stable; reflexivity).
  rewrite Hf in Hl, Hr.
  split; [|split; [rewrite Hr; now destruct (fate_of "info" st.2)|]].
  - eexists. split; [exact Hl|].
    split; [reflexivity|]. split; [reflexivity|].
    split; [apply log_call_event|]. split; [reflexivity|].
    cbn [le_dict]. subst kw. unfold completed_kw.
    repeat split; apply call_dict_lookup; try discriminate; reflexivity.
  - rewrite Hc, Hi, Hs. repeat split.
Qed.



(** *** The pass-through branch *)

Lemma call_not_http (sc : scope) (app : app_run) (w : World) :
  String.eqb (sc_type sc) "http" = false ->
  call sc app w = (run_plain (run_actions app) w, run_outcome app).
Proof. intros H. unfold call. now rewrite H. Qed.

Lemma run_plain_cons (a : app_action) (acts : list app_action) (w : World) :
  run_plain (a :: acts) w = run_plain acts (plain_step a w).
Proof. reflexivity. Qed.

Lemma plain_step_sent (a : app_action) (w : World) :
  w_sent (plain_step a w) = w_sent w ++ sent_messages [a].
Proof.
  destruct a as [m|name method event kw|c|k v]; simpl.
  - reflexivity.
  - rewrite app_nil_r. apply log_call_frame.
  - rewrite app_nil_r. apply set_correlation_id_frame.
  - now rewrite app_nil_r.
Qed.

Lemma run_plain_sent (acts : list app_action) (w : World) :
  w_sent (run_plain acts w) = w_sent w ++ sent_messages acts.
Proof.
  revert w. induction acts as [|a acts IH]; intros w.
  - simpl. now rewrite app_nil_r.
  - rewrite run_plain_cons, IH, plain_step_sent, <- app_assoc.
    f_equal. now destruct a.
Qed.

Lemma plain_step_log (a : app_action) (w : World) :
  exists l : list log_entry,
    w_log (plain_step a w) = w_log w ++ l /\
    Forall (fun e => by_middleware e = false) l /\
    length l = app_logs [a].
Proof.
  destruct a as [m|name method event kw|c|k v]; simpl.
  - exists []. now rewrite app_nil_r.
  - eexists. split; [apply log_call_log|]. split; repeat constructor.
  - exists []. rewrite app_nil_r.
    split; [apply set_correlation_id_frame | split; constructor].
  - exists []. now rewrite app_nil_r.
Qed.

Lemma run_plain_log (acts : list app_action) (w : World) :
  exists l : list log_entry,
    w_log (run_plain acts w) = w_log w ++ l /\
    Forall (fun e => by_middleware e = false) l /\
    length l = app_logs acts.
Proof.
  revert w. induction acts as [|a acts IH]; intros w.
  - exists []. simpl. now rewrite app_nil_r.
  - rewrite run_plain_cons.
    destruct (IH (plain_step a w)) as (l & Hl & Hf & Hn).
    destruct (plain_step_log a w) as (l0 & Hl0 & Hf0 & Hn0).
    exists (l0 ++ l). rewrite Hl, Hl0, <- app_assoc.
    split; [reflexivity|]. split; [now apply Forall_app|].
    rewrite length_app, Hn, Hn0. unfold app_logs. simpl.
    now destruct (is_log a).
Qed.
(** C1 breaks on a request the middleware does intercept.  An HTTP scope
    whose [x-correlation-id] value is the single byte [0xFF] makes the
    [.decode()] of the header raise [UnicodeDecodeError] before the start
    event and outside the [try]: the call ends with that exception, the
    application is never called, and the log has neither a start nor a
    completion event. *)
Theorem undecodable_header_logs_nothing (app : app_run) :
  sc_type Sample.sc_not_utf8 = "http"%string /\
  call Sample.sc_not_utf8 app Sample.w_configured
  = (Sample.w_configured, Raised UnicodeDecodeError) /\
  count_mw "request_started"
    (w_log (call Sample.sc_not_utf8 app Sample.w_configured).1) = 0%nat /\
  count_mw "request_completed"
    (w_log (call Sample.sc_not_utf8 app Sample.w_configured).1) = 0%nat.
Proof. repeat split. Qed.

(** The same happens with a query string that is not UTF-8: the id is
    bound and the clock read, but no event is logged. *)
Example undecodable_query_logs_nothing (app : app_run) :
  let sc := {| sc_type := "http"; sc_method := "GET"; sc_path := "/";
               sc_query_string := Some (String (ascii_of_N 255) EmptyString);
               sc_headers := None |} in
  (call sc app Sample.w_configured).2 = Raised UnicodeDecodeError /\
  w_log (call sc app Sample.w_configured).1 = [].
Proof. split; reflexivity. Qed.


(** *** A request that reaches the application *)

Lemma reaches_app_spec (sc : scope) (w : World) :
  reaches_app sc w = true ->
  decodable sc = true /\ returns (fate_of "info" w) = true.
Proof. unfold reaches_app. intros H. now apply andb_true_iff in H. Qed.

Lemma call_reached_eq (sc : scope) (app : app_run) (w : World) :
  reaches_app sc w = true ->
  call sc app w
  = finally_clause sc (run_actions app) (start_time sc w)
      ((run_wrapped (run_actions app) (VInt 500, at_app_start sc w)).1,
       at_finally sc app w)
      (except_clause (run_outcome app)
         (run_wrapped (run_actions app) (VInt 500, at_app_start sc w)).2).2.
Proof.
  intros Hr. apply reaches_app_spec in Hr as [Hd Hf].
  rewrite call_decodable by exact Hd.
  destruct (fate_of "info" w); try reflexivity. discriminate Hf.
Qed.

(** When the start call returned and the application left the two scope
    keys in place: the completion call is the last one made, and the call
    ends with what was in flight after the [except] clause. *)
Lemma call_reached (sc : scope) (app : app_run) (w : World) (m p : value) :
  reaches_app sc w = true ->
  final_method sc app = Some m -> final_path sc app = Some p ->
  (exists e : log_entry,
     w_log (call sc app w).1 = w_log (at_finally sc app w) ++ [e] /\
     by_middleware e = true /\
     le_method e = "info"%string /\
     event_is "request_completed" e = true /\
     le_fate e = fate_of "info" w /\
     le_dict e !! "status_code"
       = Some (default (VInt 500)
                 (last (observed_statuses (run_actions app)))) /\
     le_dict e !! "method" = Some m /\
     le_dict e !! "path" = Some p /\
     le_dict e !! "duration_seconds"
       = Some (VSeconds (clock (at_finally sc app w)
                           (clock_used (at_finally sc app w)))
                        (start_time sc w))) /\
  (call sc app w).2
    = (except_clause (run_outcome app)
         (run_wrapped (run_actions app) (VInt 500, at_app_start sc w)).2).2 /\
  correlation_id_var (call sc app w).1
    = correlation_id_var (at_finally sc app w) /\
  w_sent (call sc app w).1
    = w_sent w ++ List.filter well_formed (sent_messages (run_actions app)).
Proof.
  intros Hr Hm Hp. apply reaches_app_spec in Hr as [Hd Hf].
  rewrite call_reached_eq by (unfold reaches_app; now rewrite Hd, Hf).
  destruct (finally_clause_kept sc (run_actions app) (start_time sc w)
              ((run_wrapped (run_actions app) (VInt 500, at_app_start sc w)).1,
               at_finally sc app w)
              (except_clause (run_outcome app)
                 (run_wrapped (run_actions app)
                    (VInt 500, at_app_start sc w)).2).2
              m p Hm Hp)
    as ((e & Hl & B & M & E & F & S & Me & Pa & Du) & Ho & Hc & _ & Hs).
  cbn [fst snd] in *.
  assert (fate_of "info" (at_finally sc app w) = fate_of "info" w) as Hst
    by (apply fate_of_stable, at_finally_frame).
  rewrite Hst in F, Ho.
  split; [|split; [|split]].
  - exists e. rewrite run_wrapped_status in S. cbn [fst] in S.
    repeat split; assumption.
  - rewrite Ho. destruct (fate_of "info" w); try reflexivity.
    discriminate Hf.
  - exact Hc.
  - rewrite Hs. apply at_finally_frame.
Qed.




(** For an application that starts its response once, the first and the
    last observed status are the same one. *)
Corollary single_start_status (sc : scope) (app : app_run) (w : World)
    (s m p : value) :
  reaches_app sc w = true ->
  final_method sc app = Some m -> final_path sc app = Some p ->
  observed_statuses (run_actions app) = [s] ->
  exists e : log_entry,
    last (w_log (call sc app w).1) = Some e /\
    le_dict e !! "status_code" = Some s.
Proof.
  intros Hr Hm Hp Ho.
  destruct (call_reached sc app w m p Hr Hm Hp)
    as ((e & Hl & _ & _ & _ & _ & S & _) & _).
  exists e. rewrite Hl, last_snoc, S, Ho. split; reflexivity.
Qed.






(** Where [configure_logging] installed its chain at [WARNING], the
    [logger.exception] call of the clause raises, and its
    [AttributeError] is what the call raises in place of the handler's
    exception. *)
Example handler_exception_replaced_at_warning :
  (call Sample.sc_header Sample.app_failing Sample.w_warning).2
  = Raised (AttributeError "name").
Proof. vm_compute. reflexivity. Qed.

(** *** The correlation id of a request *)

Lemma min_level_stable (w w' : World) :
  structlog_installed w' = structlog_installed w -> min_level w' = min_level w.
Proof. unfold min_level. now intros ->. Qed.

Lemma installed_chain_stable (w w' : World) :
  structlog_installed w' = structlog_installed w ->
  installed_chain w' = installed_chain w.
Proof. unfold installed_chain. now intros ->. Qed.

Section BoundId.

(** With a non-empty [id] bound, the chain draws nothing from the entropy
    source, and once it got to [add_correlation_id] the event has that
    id, whatever a later stage does. *)
Variable id : string.
Hypothesis id_truthy : truthy id = true.

Lemma run_stage_bound (p : processor) (method : string) (ev : event_dict)
    (w : World) :
  correlation_id_var w = Some id ->
  correlation_id_var (run_stage p method ev w).2 = Some id /\
  urandom_used (run_stage p method ev w).2 = urandom_used w /\
  forall ev1, (run_stage p method ev w).1 = Next ev1 ->
    (is_correlation_stage p = true \/ ev !! "correlation_id" = Some (VStr id)) ->
    ev1 !! "correlation_id" = Some (VStr id).
Proof.
  intros Hw. destruct p; simpl;
    rewrite ?add_correlation_id_eq, ?(get_correlation_id_bound id w) by done;
    simpl; (split; [exact Hw|]); (split; [reflexivity|]);
    intros ev1 Hs [Hp|He]; try discriminate Hp;
    try (injection Hs as <-); try discriminate Hs; try exact He.
  - now apply lookup_union_Some_l.
  - apply lookup_insert_eq.
  - apply lookup_insert_eq.
  - now rewrite lookup_insert_ne.
  - now rewrite lookup_insert_ne.
Qed.

Lemma run_chain_bound (chain : list processor) (method : string)
    (ev : event_dict) (w : World) :
  correlation_id_var w = Some id ->
  urandom_used (run_chain chain method ev w).2 = urandom_used w /\
  ((runs_correlation_stage chain = true \/
    ev !! "correlation_id" = Some (VStr id)) ->
   (run_chain chain method ev w).1.1 !! "correlation_id" = Some (VStr id)).
Proof.
  revert ev w. induction chain as [|p rest IH]; intros ev w Hw.
  - simpl. split; [reflexivity|]. now intros [H|H].
  - destruct (run_stage_bound p method ev w Hw) as (Hc & Hu & Hk).
    simpl. destruct (run_stage p method ev w) as [[ev1|e] w1] eqn:E;
      simpl in Hc, Hu, Hk.
    + destruct (IH ev1 w1 Hc) as [Hu' Hk']. split; [congruence|].
      intros H. apply Hk'.
      destruct (is_correlation_stage p) eqn:Ep.
      * right. apply Hk; [reflexivity | now left].
      * destruct H as [H|H].
        -- destruct (is_logger_name p) eqn:El; [discriminate H|].
           now left.
        -- right. apply Hk; [reflexivity | now right].
    + split; [exact Hu|]. intros [H|H]; [|exact H].
      destruct p; simpl in E; rewrite ?add_correlation_id_eq in E;
        try discriminate E. discriminate H.
Qed.

Lemma log_call_bound lg method event (kw : event_dict) (w : World) :
  correlation_id_var w = Some id ->
  urandom_used (log_call lg method event kw w).1 = urandom_used w /\
  (runs_correlation_stage (installed_chain w) = true ->
   past_filter w {| le_logger := lg; le_method := method;
                    le_dict := call_dict method event kw w;
                    le_fate := fate_of method w |} = true ->
   call_dict method event kw w !! "correlation_id" = Some (VStr id)).
Proof.
  intros Hw.
  destruct (run_chain_bound (installed_chain w) (level_name method)
              (<["event" := VStr event]> (call_kw method kw)) w Hw) as [Hu Hk].
  split.
  - unfold log_call. destruct (method_level method) as [l|]; [|reflexivity].
    destruct (l <? min_level w)%Z; [reflexivity|].
    destruct (run_chain _ _ _ w) as [[ev r] w1]. simpl in Hu.
    now destruct r.
  - intros Hr Hp. unfold past_filter in Hp. simpl in Hp.
    unfold call_dict, fate_of.
    destruct (method_level method) as [l|]; [|discriminate Hp].
    destruct (l <? min_level w)%Z; [discriminate Hp|].
    destruct (chain_error (installed_chain w)); apply Hk; now left.
Qed.

(** The invariant of a request, from [w0] with the log [pre] on. *)
Variables (w0 : World) (pre : list log_entry) (n : nat).

Lemma inv_log_call lg method event (kw : event_dict) (w : World) :
  request_inv id w0 pre n w ->
  request_inv id w0 pre n (log_call lg method event kw w).1.
Proof.
  intros (Hc & Hi & Hn & l & Hl & Hf).
  destruct (log_call_frame lg method event kw w) as (Fc & Fi & _).
  destruct (log_call_bound lg method event kw w Hc) as [Hu Hk].
  split; [congruence|]. split; [congruence|]. split; [congruence|].
  eexists. rewrite log_call_log, Hl, <- app_assoc. split; [reflexivity|].
  intros Hr. apply Forall_app. split; [now apply Hf|].
  repeat constructor. intros Hp. apply Hk.
  - now rewrite (installed_chain_stable w0 w).
  - unfold past_filter in *. now rewrite (min_level_stable w0 w).
Qed.

Lemma inv_run_wrapped (acts : list app_action) (st : value * World) :
  no_set acts = true -> request_inv id w0 pre n st.2 ->
  request_inv id w0 pre n (run_wrapped acts st).2.
Proof.
  revert st. induction acts as [|a acts IH]; intros st Hn H; [exact H|].
  simpl in Hn. apply andb_true_iff in Hn as [Ha Hs].
  rewrite run_wrapped_cons. apply IH; [exact Hs|].
  destruct a as [m|name method event kw|c|k v]; simpl.
  - rewrite send_wrapper_eq. destruct (well_formed m); exact H.
  - now apply inv_log_call.
  - discriminate.
  - exact H.
Qed.

Lemma inv_run_plain (acts : list app_action) (w : World) :
  no_set acts = true -> request_inv id w0 pre n w ->
  request_inv id w0 pre n (run_plain acts w).
Proof.
  revert w. induction acts as [|a acts IH]; intros w Hn H; [exact H|].
  simpl in Hn. apply andb_true_iff in Hn as [Ha Hs].
  rewrite run_plain_cons. apply IH; [exact Hs|].
  destruct a as [m|name method event kw|c|k v]; simpl.
  - exact H.
  - now apply inv_log_call.
  - discriminate.
  - exact H.
Qed.

Lemma inv_except_clause (o : outcome) (w : World) :
  request_inv id w0 pre n w ->
  request_inv id w0 pre n (except_clause o w).1.
Proof.
  intros H. destruct o as [|e]; simpl; [exact H|].
  destruct (exc_is_Exception e); [|exact H].
  pose proof (inv_log_call MiddlewareLogger "exception" "request_error"
                (error_kw e) w H) as H'.
  now destruct (log_call _ _ _ _ w).
Qed.

Lemma inv_finally_clause (sc : scope) (acts : list app_action)
    (t0 : datetime) (st : value * World) (o : outcome) :
  request_inv id w0 pre n st.2 ->
  request_inv id w0 pre n (finally_clause sc acts t0 st o).1.
Proof.
  intros H. rewrite finally_clause_eq.
  destruct (scope_after acts "method" _); [|exact H].
  destruct (scope_after acts "path" _); [|exact H].
  cbn [fst]. now apply inv_log_call.
Qed.

Lemma inv_call_tail (sc : scope) (app : app_run) (w : World) :
  decodable sc = true ->
  no_set (run_actions app) = true ->
  request_inv id w0 pre n (utcnow (bind_request sc w)).2 ->
  request_inv id w0 pre n (call sc app w).1.
Proof.
  intros Hd Hn H. rewrite call_decodable by exact Hd.
  assert (request_inv id w0 pre n (at_app_start sc w)) as H1
    by now apply inv_log_call.
  destruct (fate_of "info" w); cbn [fst]; try exact H1;
    apply inv_finally_clause; cbn [snd]; apply inv_except_clause;
    now apply inv_run_wrapped.
Qed.

End BoundId.

Lemma bind_request_draws (sc : scope) (w : World) :
  urandom_used (bind_request sc w)
  = (urandom_used w + if truthy (correlation_header sc) then 0 else 1)%nat.
Proof.
  unfold bind_request, set_correlation_id. rewrite request_id_truthy.
  destruct (truthy (correlation_header sc)); simpl; lia.
Qed.

(** From the binding on, on every path of the call. *)
Lemma call_bound (sc : scope) (app : app_run) (w : World) :
  sc_type sc = "http"%string ->
  utf8_valid (correlation_header sc) = true ->
  no_set (run_actions app) = true ->
  correlation_id_var (call sc app w).1 = Some (request_id sc w) /\
  urandom_used (call sc app w).1
    = (urandom_used w + if truthy (correlation_header sc) then 0 else 1)%nat /\
  exists l : list log_entry,
    w_log (call sc app w).1 = w_log w ++ l /\
    (runs_correlation_stage (installed_chain w) = true ->
     Forall (fun e => past_filter w e = true -> carries (request_id sc w) e) l).
Proof.
  intros Ht Hh Hn.
  assert (correlation_id_var (utcnow (bind_request sc w)).2
            = Some (request_id sc w) /\
          structlog_installed (utcnow (bind_request sc w)).2
            = structlog_installed w /\
          urandom_used (utcnow (bind_request sc w)).2
            = (urandom_used w
               + if truthy (correlation_header sc) then 0 else 1)%nat /\
          exists l : list log_entry,
            w_log (utcnow (bind_request sc w)).2 = w_log w ++ l /\
            (runs_correlation_stage (installed_chain w) = true ->
             Forall (fun e => past_filter w e = true ->
                              carries (request_id sc w) e) l)) as H0.
  { simpl. split; [apply bind_request_cid|].
    split; [apply bind_request_frame|]. split; [apply bind_request_draws|].
    exists []. rewrite app_nil_r.
    split; [apply bind_request_frame | constructor]. }
  destruct (utf8_valid (query_bytes sc)) eqn:Hq.
  - assert (decodable sc = true) as Hd
      by (unfold decodable; rewrite Ht, Hh, Hq; reflexivity).
    destruct (inv_call_tail (request_id sc w) (request_id_truthy sc w) w
                (w_log w) _ sc app w Hd Hn H0) as (Hc & _ & Hu & Hl).
    split; [exact Hc|]. split; [exact Hu | exact Hl].
  - assert (call sc app w
            = ((utcnow (bind_request sc w)).2, Raised UnicodeDecodeError))
      as ->.
    { unfold call, decode, bind_request, request_id.
      fold (correlation_header sc). fold (query_bytes sc).
      rewrite Ht, Hh, Hq. simpl negb. cbv iota.
      destruct (truthy (correlation_header sc)); reflexivity. }
    destruct H0 as (Hc & _ & Hu & Hl).
    split; [exact Hc|]. split; [exact Hu | exact Hl].
Qed.

(** C6, as the spec states it, fails in a context where structlog has its
    defaults: the chain has no [add_correlation_id] stage, the request with
    [x-correlation-id: abc-123] has its start event written, and that event
    carries no [correlation_id]. *)
Lemma written_events_without_the_stage_carry_no_id :
  ~ (forall (sc : scope) (app : app_run) (w : World),
       reaches_app sc w = true ->
       truthy (correlation_header sc) = true ->
       no_set (run_actions app) = true ->
       Forall (fun e => is_written e = true ->
                        carries (correlation_header sc) e)
              (emitted w (call sc app w).1)).
Proof.
  intros H.
  specialize (H Sample.sc_header Sample.app_ok Sample.w_fresh
                eq_refl eq_refl eq_refl).
  assert (exists e l,
            emitted Sample.w_fresh
              (call Sample.sc_header Sample.app_ok Sample.w_fresh).1 = e :: l /\
            is_written e = true /\ le_dict e !! "correlation_id" = None)
    as (e & l & He & Hw & Hn).
  { vm_compute. eexists _, _. repeat split. }
  rewrite He in H. apply Forall_cons in H as [H _].
  specialize (H Hw). unfold carries in H. rewrite Hn in H. discriminate H.
Qed.

(** C6, amended.  For an HTTP request whose [x-correlation-id] value (the
    one [headers.get] finds) decodes, the middleware binds that value as
    the correlation id when it is not empty, and the UUID of the next
    entropy draw when the header is absent or empty.  Unless the
    application calls [set_correlation_id] itself, that id is still bound
    when the call ends, however it ends; [add_correlation_id] then sets
    [correlation_id] to it in every event dict it is given; and where the
    installed chain gets to that stage, every call on a logger made
    during the request that got past the level filter was recorded with
    that id.  Nothing is said of whether the rest of the chain then writes
    the event. *)
Theorem correlation_id_propagates (sc : scope) (app : app_run) (w : World) :
  sc_type sc = "http"%string ->
  utf8_valid (correlation_header sc) = true ->
  no_set (run_actions app) = true ->
  request_id sc w
    = (if truthy (correlation_header sc) then correlation_header sc
       else str_uuid (uuid4_int (urandom w (urandom_used w)))) /\
  request_id sc w <> EmptyString /\
  correlation_id_var (call sc app w).1 = Some (request_id sc w) /\
  (forall ev : event_dict,
     (add_correlation_id ev (call sc app w).1).1 !! "correlation_id"
     = Some (VStr (request_id sc w))) /\
  (runs_correlation_stage (installed_chain w) = true ->
   Forall (fun e => past_filter w e = true -> carries (request_id sc w) e)
          (emitted w (call sc app w).1)).
Proof.
  intros Ht Hh Hn.
  destruct (call_bound sc app w Ht Hh Hn) as (Hc & _ & l & Hl & Hf).
  split; [reflexivity|].
  split; [apply truthy_nonempty, request_id_truthy|].
  split; [exact Hc|]. split.
  - intros ev. rewrite add_correlation_id_eq.
    rewrite (get_correlation_id_bound (request_id sc w))
      by (try exact Hc; apply request_id_truthy).
    apply lookup_insert_eq.
  - unfold emitted. now rewrite Hl, drop_app_length.
Qed.

Lemma correlation_id_propagates_witness :
  correlation_id_var
    (call Sample.sc_header Sample.app_ok Sample.w_configured).1
    = Some "abc-123"%string /\
  Forall (fun e => past_filter Sample.w_configured e = true ->
                   carries "abc-123" e)
    (emitted Sample.w_configured
       (call Sample.sc_header Sample.app_ok Sample.w_configured).1).
Proof.
  pose proof (correlation_id_propagates Sample.sc_header Sample.app_ok
                Sample.w_configured eq_refl eq_refl eq_refl)
    as (_ & _ & Hc & _ & Hf).
  split; [exact Hc | exact (Hf eq_refl)].
Defined.

Example generated_id_when_header_absent :
  request_id Sample.sc_plain Sample.w_configured
  = "00000000-0000-4000-8000-000000000000"%string.
Proof. vm_compute. reflexivity. Qed.

(** An application that rebinds the id changes what is bound when the
    call ends. *)
Example rebinding_changes_the_bound_id :
  correlation_id_var
    (call Sample.sc_header Sample.app_rebinds Sample.w_fresh).1
  = Some "other"%string.
Proof. vm_compute. reflexivity. Qed.

(** *** The chain [configure_logging] installs *)

Lemma configure_logging_known (level : string) (json_logs : bool)
    (service_name environment : string) (w : World) (n : Z) :
  getLevelName level = VInt n ->
  configure_logging level json_logs service_name environment w
  = (with_structlog
       (Some {| cfg_processors := processors json_logs;
                cfg_min_level := VInt n;
                cfg_cache_logger_on_first_use := true |})
       (<["environment" := VStr environment]>
          (<["service" := VStr service_name]> (structlog_contextvars w)))
       w,
     Returned).
Proof. unfold configure_logging. now intros ->. Qed.


(** The module's chain on a logger call: the first four stages run, in
    the order of the list, and the fifth raises. *)
Lemma run_chain_processors (json_logs : bool) (method : string)
    (ev : event_dict) (w : World) :
  run_chain (processors json_logs) method ev w
  = (<["level" := VStr (level_name method)]>
       (add_timestamp
          (add_correlation_id (ev ∪ structlog_contextvars w) w).1
          (add_correlation_id (ev ∪ structlog_contextvars w) w).2).1,
     Some (AttributeError "name"),
     (add_timestamp
        (add_correlation_id (ev ∪ structlog_contextvars w) w).1
        (add_correlation_id (ev ∪ structlog_contextvars w) w).2).2).
Proof.
  unfold processors. cbn [app run_chain run_stage].
  destruct (add_correlation_id (ev ∪ structlog_contextvars w) w)
    as [ev1 w1]. cbn [fst snd].
  destruct (add_timestamp ev1 w1) as [ev2 w2]. reflexivity.
Qed.

Lemma level_name_idem (method : string) :
  level_name (level_name method) = level_name method.
Proof.
  unfold level_name.
  destruct (String.eqb method "exception") eqn:E1; [reflexivity|].
  destruct (String.eqb method "warn") eqn:E2; [reflexivity|].
  destruct (String.eqb method "fatal") eqn:E3; [reflexivity|].
  destruct (String.eqb method "msg") eqn:E4; [reflexivity|].
  now rewrite E1, E2, E3, E4.
Qed.

(** C8: the installed list is the nine stages in the stated order, with
    the renderer chosen by [json_logs] when [configure_logging] runs; but
    a logger call at or above the configured level gets through the first
    four of them only.  [add_logger_name] reads [logger.name], the logger
    of [PrintLoggerFactory] has no such attribute, and the call raises
    [AttributeError]: the event has been given the bound context
    variables, then the correlation id, then the timestamp, then the
    level, in that order, and it is neither rendered nor written. *)
Theorem configure_logging_chain (level : string) (json_logs : bool)
    (service_name environment : string) (w : World) (n l : Z)
    (lg : logger_ref) (method event : string) (kw : event_dict) :
  getLevelName level = VInt n ->
  method_level method = Some l ->
  (n <= l)%Z ->
  let w' := (configure_logging level json_logs service_name environment w).1 in
  let ev := <["event" := VStr event]> (call_kw method kw) ∪ structlog_contextvars w' in
  installed_chain w'
    = [ merge_contextvars; add_correlation_id_stage; add_timestamp_stage;
        add_log_level; add_logger_name; StackInfoRenderer; format_exc_info;
        UnicodeDecoder;
        if json_logs then JSONRenderer else ConsoleRenderer ] /\
  (log_call lg method event kw w').2 = Some (AttributeError "name") /\
  w_log (log_call lg method event kw w').1
    = w_log w ++
      [{| le_logger := lg; le_method := method;
          le_dict :=
            <["level" := VStr (level_name method)]>
              (add_timestamp (add_correlation_id ev w').1
                             (add_correlation_id ev w').2).1;
          le_fate := Failed (AttributeError "name") |}].
Proof.
  intros Hl Hm Hle w' ev.
  assert (installed_chain w' = processors json_logs) as Hc
    by (unfold w'; now rewrite (configure_logging_known _ _ _ _ _ n)).
  assert (min_level w' = n) as Hn
    by (unfold w'; now rewrite (configure_logging_known _ _ _ _ _ n)).
  assert (w_log w' = w_log w) as Hw
    by (unfold w'; now rewrite (configure_logging_known _ _ _ _ _ n)).
  split; [rewrite Hc; now destruct json_logs|].
  unfold log_call. rewrite Hm, Hn.
  destruct (Z.ltb_spec l n) as [Hlt|_]; [lia|].
  rewrite Hc, run_chain_processors, level_name_idem. fold ev. cbn [fst snd].
  split; [reflexivity|].
  cbn [fst snd w_log with_log]. f_equal.
  change (w_log (add_timestamp (add_correlation_id ev w').1
                               (add_correlation_id ev w').2).2)
    with (w_log (add_correlation_id ev w').2).
  rewrite add_correlation_id_eq. cbn [snd].
  destruct (get_correlation_id_counters w') as (_ & _ & _ & _ & _ & -> & _).
  exact Hw.
Qed.

Lemma configure_logging_chain_witness :
  (log_call (AppLogger "x") "info" "hello" ∅ Sample.w_configured).2
    = Some (AttributeError "name") /\
  exists e : log_entry,
    w_log (log_call (AppLogger "x") "info" "hello" ∅ Sample.w_configured).1
      = [e] /\
    le_fate e = Failed (AttributeError "name") /\
    le_dict e !! "level" = Some (VStr "info") /\
    le_dict e !! "timestamp" = Some (VStr "2024-01-02T03:04:05Z") /\
    le_dict e !! "correlation_id"
      = Some (VStr "00000000-0000-4000-8000-000000000000") /\
    le_dict e !! "service" = Some (VStr "app") /\
    le_dict e !! "logger" = None.
Proof.
  destruct (configure_logging_chain "INFO" true "app" "development"
              Sample.w_fresh 20 20 (AppLogger "x") "info" "hello" ∅
              eq_refl eq_refl ltac:(lia)) as (_ & Hr & Hl).
  split; [exact Hr|].
  eexists. split; [exact Hl|]. repeat split.
Defined.

(** With structlog's defaults, before [configure_logging], the same call
    is written. *)
Example unconfigured_call_is_written :
  (log_call (AppLogger "x") "info" "hello" ∅ Sample.w_fresh).2 = None /\
  fate_of "info" Sample.w_fresh = Written.
Proof. split; reflexivity. Qed.

(** ** The record of calls of a request *)







(** *** Readings of the clock and draws of entropy *)













(** ** Further properties of the middleware *)

(** X1. On a scope whose type is not ["http"] the middleware steps aside:
    the application gets the server's [send] itself, so every message it
    sends goes out, well-formed or not; the log grows by the application's
    own entries only, with no event of the middleware; the call ends as
    the application does; and the correlation id is what it was unless the
    application sets it. *)
Theorem other_scopes_pass_through (sc : scope) (app : app_run) (w : World)
    (name : string) :
  sc_type sc <> "http"%string ->
  (call sc app w).2 = run_outcome app /\
  w_sent (call sc app w).1 = w_sent w ++ sent_messages (run_actions app) /\
  length (emitted w (call sc app w).1) = app_logs (run_actions app) /\
  count_mw name (w_log (call sc app w).1) = count_mw name (w_log w) /\
  (no_set (run_actions app) = true ->
   correlation_id_var (call sc app w).1 = correlation_id_var w).
Proof.
  intros Ht. apply String.eqb_neq in Ht.
  rewrite call_not_http by done. cbn [fst snd].
  destruct (run_plain_log (run_actions app) w) as (l & Hl & Hf & Hn).
  split; [reflexivity|]. split; [apply run_plain_sent|].
  split; [unfold emitted; now rewrite Hl, drop_app_length|].
  split.
  - rewrite Hl, count_mw_app, (count_mw_not_middleware name l Hf). lia.
  - apply run_plain_cid.
Qed.

Lemma other_scopes_pass_through_witness :
  w_sent (call {| sc_type := "websocket"; sc_method := ""; sc_path := "/ws";
                  sc_query_string := None; sc_headers := None |}
               Sample.app_ok Sample.w_configured).1
    = [Sample.response_start 200; Sample.response_body] /\
  count_mw "request_started"
    (w_log (call {| sc_type := "websocket"; sc_method := ""; sc_path := "/ws";
                    sc_query_string := None; sc_headers := None |}
                 Sample.app_ok Sample.w_configured).1) = 0%nat.
Proof.
  pose proof (other_scopes_pass_through
                {| sc_type := "websocket"; sc_method := ""; sc_path := "/ws";
                   sc_query_string := None; sc_headers := None |}
                Sample.app_ok Sample.w_configured "request_started"
                ltac:(discriminate)) as (_ & Hs & _ & Hc & _).
  split; [exact Hs | exact Hc].
Defined.





(** With the module's chain every call that gets past the filter reads the
    clock for its timestamp, so the reading of the [finally] clause is a
    later one: here, at level [WARNING], the application logs a warning. *)
Example completion_reading_at_warning :
  readings_between
    {| run_actions := [ALog "app" "warning" "slow" ∅];
       run_outcome := Returned |} Sample.w_warning = 1%nat.
Proof. reflexivity. Qed.











(** ** The header lookup *)

Lemma dict_lookup_last (pairs : list (string * string)) (k : string) :
  dict pairs !! k = last_value k pairs.
Proof.
  unfold dict, last_value.
  induction pairs as [|[n v] pairs IH] using rev_ind; [reflexivity|].
  rewrite foldl_app, omap_app. simpl.
  destruct (String.eqb_spec n k) as [->|Hn].
  - rewrite lookup_insert_eq. simpl. now rewrite last_snoc.
  - rewrite lookup_insert_ne by done. simpl. now rewrite app_nil_r.
Qed.

Lemma correlation_header_last (sc : scope) :
  correlation_header sc
  = default EmptyString
      (last_value "x-correlation-id" (default [] (sc_headers sc))).
Proof. unfold correlation_header, get. now rewrite dict_lookup_last. Qed.

Lemma call_header_fails (sc : scope) (app : app_run) (w : World) :
  sc_type sc = "http"%string ->
  utf8_valid (correlation_header sc) = false ->
  call sc app w = (w, Raised UnicodeDecodeError).
Proof.
  intros Ht Hh. unfold call, decode. fold (correlation_header sc).
  now rewrite Ht, Hh.
Qed.


(** X7. Of the headers of an HTTP scope the middleware looks at the last
    one whose name is exactly [x-correlation-id] ([dict] keeps the last of
    the pairs with one key), and takes the empty bytes when there is none.
    When that value does not decode, the call raises [UnicodeDecodeError]
    and nothing else has happened.  When it decodes and is not empty it is
    the id the request binds, and otherwise the bound id is the UUID of
    the next draw; unless the application rebinds, this is the id bound
    when the call ends. *)
Theorem bound_id_is_last_header (sc : scope) (app : app_run) (w : World) :
  let h := default EmptyString
             (last_value "x-correlation-id" (default [] (sc_headers sc))) in
  sc_type sc = "http"%string ->
  no_set (run_actions app) = true ->
  if utf8_valid h
  then correlation_id_var (call sc app w).1
       = Some (if truthy h then h
               else str_uuid (uuid4_int (urandom w (urandom_used w))))
  else call sc app w = (w, Raised UnicodeDecodeError).
Proof.
  intros h Ht Hn. unfold h. rewrite <- correlation_header_last.
  destruct (utf8_valid (correlation_header sc)) eqn:Hh.
  - now destruct (call_bound sc app w Ht Hh Hn) as (Hc & _).
  - now apply call_header_fails.
Qed.

Lemma bound_id_is_last_header_witness :
  correlation_id_var
    (call Sample.sc_repeated Sample.app_ok Sample.w_fresh).1
  = Some "00000000-0000-4000-8000-000000000000"%string.
Proof.
  exact (bound_id_is_last_header Sample.sc_repeated Sample.app_ok
           Sample.w_fresh eq_refl eq_refl).
Defined.

(** ** How the call ends *)


Example deleted_scope_key_replaces_outcome :
  (call Sample.sc_plain Sample.app_drops_path Sample.w_fresh).2
  = Raised (KeyError "path").
Proof. reflexivity. Qed.

(** ** Identifiers drawn and bound *)

(** X12. An HTTP request whose header value decodes, and whose
    application does not call [set_correlation_id], draws no UUID at all
    when the header value is not empty, and exactly one, the id it binds,
    when it is empty or absent: no logger call made during the request
    draws another, however the request ends. *)
Theorem one_uuid_per_request (sc : scope) (app : app_run) (w : World) :
  sc_type sc = "http"%string ->
  utf8_valid (correlation_header sc) = true ->
  no_set (run_actions app) = true ->
  urandom_used (call sc app w).1
    = (urandom_used w + if truthy (correlation_header sc) then 0 else 1)%nat /\
  correlation_id_var (call sc app w).1
    = Some (if truthy (correlation_header sc) then correlation_header sc
            else str_uuid (uuid4_int (urandom w (urandom_used w)))).
Proof.
  intros Ht Hh Hn.
  destruct (call_bound sc app w Ht Hh Hn) as (Hc & Hu & _).
  split; [exact Hu | exact Hc].
Qed.

Lemma one_uuid_per_request_witness :
  urandom_used (call Sample.sc_header Sample.app_failing Sample.w_fresh).1
    = 0%nat /\
  urandom_used (call Sample.sc_plain Sample.app_failing Sample.w_fresh).1
    = 1%nat.
Proof.
  split.
  - exact (proj1 (one_uuid_per_request Sample.sc_header Sample.app_failing
                    Sample.w_fresh eq_refl eq_refl eq_refl)).
  - exact (proj1 (one_uuid_per_request Sample.sc_plain Sample.app_failing
                    Sample.w_fresh eq_refl eq_refl eq_refl)).
Defined.

(** X13. Code that binds an id with [set_correlation_id] itself, without
    the middleware: for as long as [set_correlation_id] is not called
    again the id it returned stays bound, [add_correlation_id] puts that
    id in every event dict it is given and draws nothing, and where the
    installed chain gets to [add_correlation_id] every logger call made
    that got past the level filter is recorded with that id. *)
Theorem events_after_set_carry_id (c : option string)
    (acts : list app_action) (w : World) :
  no_set acts = true ->
  let r := set_correlation_id c w in
  let w' := run_plain acts r.2 in
  correlation_id_var w' = Some r.1 /\
  urandom_used w' = urandom_used r.2 /\
  (forall ev : event_dict,
     add_correlation_id ev w' = (<["correlation_id" := VStr r.1]> ev, w')) /\
  (runs_correlation_stage (installed_chain w) = true ->
   Forall (fun e => past_filter w e = true -> carries r.1 e) (emitted w w')).
Proof.
  intros Hn r w'.
  destruct (inv_run_plain r.1 (set_correlation_id_truthy c w) w (w_log w)
              (urandom_used r.2) acts r.2 Hn)
    as (Hc & _ & Hu & l & Hl & Hf).
  { split; [apply set_correlation_id_binds|].
    split; [apply set_correlation_id_frame|]. split; [reflexivity|].
    exists []. rewrite app_nil_r.
    split; [apply set_correlation_id_frame | constructor]. }
  split; [exact Hc|]. split; [exact Hu|]. split.
  - intros ev. rewrite add_correlation_id_eq.
    now rewrite (get_correlation_id_bound r.1 w' Hc
                   (set_correlation_id_truthy c w)).
  - intros Hr. unfold emitted, w'. rewrite Hl, drop_app_length. now apply Hf.
Qed.

Lemma events_after_set_carry_id_witness :
  Forall (fun e => past_filter Sample.w_configured e = true ->
                   carries "abc-123" e)
    (emitted Sample.w_configured
       (run_plain [ALog "app" "error" "failed" ∅; ALog "app" "debug" "x" ∅]
          (set_correlation_id (Some "abc-123"%string)
             Sample.w_configured).2)).
Proof.
  exact (proj2 (proj2 (proj2
           (events_after_set_carry_id (Some "abc-123"%string)
              [ALog "app" "error" "failed" ∅; ALog "app" "debug" "x" ∅]
              Sample.w_configured eq_refl))) eq_refl).
Defined.

(** ** What [configure_logging] does *)


Example configure_logging_lower_case_level :
  configure_logging "info" true "app" "development" Sample.w_fresh
  = (Sample.w_fresh, Raised (KeyError "Level info")).
Proof. reflexivity. Qed.

Example debug_call_is_dropped_at_info :
  fate_of "debug" Sample.w_configured = Dropped /\
  fate_of "info" Sample.w_configured = Failed (AttributeError "name").
Proof. split; reflexivity. Qed.


